(** * Accelerator engine framework (lib/accel/accel_engine.c)

    A shallow embedding of the dispatch framework and of the built-in
    software engine, with the theorems that relate the code to the
    natural-language specification of the framework. *)

From Stdlib Require Import ZArith Lia List String.
From Stdlib.Strings Require Import Byte.
From stdpp Require Import base option list gmap.

Local Open Scope Z_scope.

(** ** Machine integers *)

(** [uintptr_t], [uint64_t] and [size_t] are 64-bit words, [uint32_t] is a
    32-bit word; both are carried by [Z] with the wrap-around written out. *)
Definition wrap64 (z : Z) : Z := z mod 2 ^ 64.
Definition wrap32 (z : Z) : Z := z mod 2 ^ 32.

(** [~x] on a [uint32_t]. *)
Definition not32 (x : Z) : Z := Z.lxor (wrap32 x) (Z.ones 32).

(** [#define ALIGN_4K 0x1000] *)
Definition ALIGN_4K : Z := 0x1000.

(** [EINVAL] of errno.h. *)
Definition EINVAL : Z := 22.

(** ** Bytes and the flat data memory *)

Definition Z_of_byte (b : byte) : Z := Z.of_N (Byte.to_N b).

Definition byte_of_Z (z : Z) : byte :=
  match Byte.of_N (Z.to_N (z mod 256)) with
  | Some b => b
  | None => x00
  end.

(** Data memory: one byte per address. *)
Definition memory := Z -> byte.

Definition store (m : memory) (a : Z) (b : byte) : memory :=
  fun a' => if Z.eqb a' a then b else m a'.

(** [memcpy(dst, src, n)] as the byte loop of the C library, lowest address
    first. The C standard leaves overlapping [dst] and [src] undefined. *)
Fixpoint memcpy_loop (m : memory) (dst src : Z) (k : nat) : memory :=
  match k with
  | O => m
  | S k' => memcpy_loop (store m dst (m src)) (dst + 1) (src + 1) k'
  end.

Definition memcpy (m : memory) (dst src n : Z) : memory :=
  memcpy_loop m dst src (Z.to_nat n).

(** [memset(dst, c, n)]. *)
Fixpoint memset_loop (m : memory) (dst : Z) (c : byte) (k : nat) : memory :=
  match k with
  | O => m
  | S k' => memset_loop (store m dst c) (dst + 1) c k'
  end.

Definition memset (m : memory) (dst : Z) (c : byte) (n : Z) : memory :=
  memset_loop m dst c (Z.to_nat n).

(** [memcmp(s1, s2, n)]: the difference of the first pair of bytes that
    differ, read as [unsigned char], and 0 when there is none. *)
Fixpoint memcmp_loop (m : memory) (s1 s2 : Z) (k : nat) : Z :=
  match k with
  | O => 0
  | S k' =>
      if Z.eqb (Z_of_byte (m s1)) (Z_of_byte (m s2))
      then memcmp_loop m (s1 + 1) (s2 + 1) k'
      else Z_of_byte (m s1) - Z_of_byte (m s2)
  end.

Definition memcmp (m : memory) (s1 s2 n : Z) : Z :=
  memcmp_loop m s1 s2 (Z.to_nat n).

(** The [k] bytes that start at [p]. *)
Fixpoint read_bytes (m : memory) (p : Z) (k : nat) : list byte :=
  match k with
  | O => []
  | S k' => m p :: read_bytes m (p + 1) k'
  end.

(** A [uint32_t] object in memory, least significant byte first. *)
Definition store_u32 (m : memory) (p : Z) (v : Z) : memory :=
  store (store (store (store m p (byte_of_Z v))
                      (p + 1) (byte_of_Z (Z.shiftr v 8)))
               (p + 2) (byte_of_Z (Z.shiftr v 16)))
        (p + 3) (byte_of_Z (Z.shiftr v 24)).

Definition load_u32 (m : memory) (p : Z) : Z :=
  Z_of_byte (m p)
  + Z.shiftl (Z_of_byte (m (p + 1))) 8
  + Z.shiftl (Z_of_byte (m (p + 2))) 16
  + Z.shiftl (Z_of_byte (m (p + 3))) 24.

(** The [n]-byte regions at [p] and [q] share no address. *)
Definition disjoint (p q n : Z) : Prop := p + n <= q \/ q + n <= p.

(** ** Descriptors *)

(** A pointer to a [struct spdk_accel_engine]: the built-in
    [sw_accel_engine] or the descriptor of a hardware module. *)
Inductive engine_ref :=
| sw_accel_engine_ref
| hw_engine_ref (id : Z).

#[global] Instance engine_ref_eq_dec : EqDecision engine_ref.
Proof. solve_decision. Defined.

(** The [module_fini] and [module_init] function pointers of a module. *)
Inductive fini_hook :=
| sw_accel_engine_fini_hook
| module_fini_hook (id : Z).

Inductive init_hook :=
| sw_accel_engine_init_hook
| module_init_hook (id : Z).

#[global] Instance fini_hook_eq_dec : EqDecision fini_hook.
Proof. solve_decision. Defined.

(** [struct spdk_accel_module_if], without its two configuration emitters.
    [get_ctx_size] is an optional function without arguments that reports
    a constant size. *)
Record spdk_accel_module_if := {
  module_init : init_hook;
  module_fini : option fini_hook;
  get_ctx_size : option Z;
}.

(** The two I/O devices of this file, named in C by the address of
    [spdk_accel_module_list] and of [sw_accel_engine]. *)
Inductive io_device := accel_dev | sw_dev.

#[global] Instance io_device_eq_dec : EqDecision io_device.
Proof. solve_decision. Defined.

#[global] Instance io_device_countable : Countable io_device.
Proof.
  refine (inj_countable'
            (fun d => match d with accel_dev => true | sw_dev => false end)
            (fun b : bool => if b then accel_dev else sw_dev) _).
  by intros [].
Defined.

(** A pointer to a [struct spdk_io_channel]. The thread library keeps at
    most one channel per device and thread, so a channel of one of the two
    devices above is named by that pair; the channels of a hardware module
    are its own. *)
Inductive chan_ptr :=
| io_chan (d : io_device) (thread : Z)
| hw_chan (id : Z).

#[global] Instance chan_ptr_eq_dec : EqDecision chan_ptr.
Proof. solve_decision. Defined.

(** [struct accel_io_channel]: the context buffer of a framework channel. *)
Record accel_io_channel := {
  engine : option engine_ref;
  ch : option chan_ptr;
}.

(** A [struct spdk_io_channel] of the thread library with its context. *)
Record spdk_io_channel := {
  chan_ref : nat;
  chan_ctx : accel_io_channel;
}.

(** What the framework does to the outside. *)
Inductive event :=
| EvNoticeLog (msg : string)
| EvErrLog (msg : string)
| EvCompletion (cb : Z) (ref : Z) (status : Z)
| EvModuleInit (h : init_hook)
| EvSendMsg (thread : Z) (fn : fini_hook)
| EvMsgRun (fn : fini_hook)
| EvFiniCb (cb_fn : Z) (cb_arg : Z).

(** ** The state *)

Record world := {
  g_max_accel_module_size : Z;
  g_hw_accel_engine : option engine_ref;
  g_sw_accel_engine : option engine_ref;
  (** the finalization cursor, as a position in the module list *)
  g_accel_engine_module : option nat;
  g_fini_cb_fn : option Z;
  g_fini_cb_arg : Z;
  spdk_accel_module_list : list spdk_accel_module_if;
  (** data buffers *)
  mem : memory;
  (** the [cb] field of every [struct spdk_accel_task], by task address *)
  task_cb : gmap Z Z;
  (** the thread library: registered devices, channels, current thread
      and its message queue *)
  io_devices : list io_device;
  channels : gmap (io_device * Z) spdk_io_channel;
  cur_thread : Z;
  msgq : list fini_hook;
  trace : list event;
}.

Definition set_max_size (v : Z) (w : world) : world :=
  {| g_max_accel_module_size := v;
     g_hw_accel_engine := g_hw_accel_engine w; g_sw_accel_engine := g_sw_accel_engine w;
     g_accel_engine_module := g_accel_engine_module w;
     g_fini_cb_fn := g_fini_cb_fn w; g_fini_cb_arg := g_fini_cb_arg w;
     spdk_accel_module_list := spdk_accel_module_list w;
     mem := mem w; task_cb := task_cb w; io_devices := io_devices w;
     channels := channels w;
     cur_thread := cur_thread w; msgq := msgq w; trace := trace w |}.

Definition set_hw (v : option engine_ref) (w : world) : world :=
  {| g_max_accel_module_size := g_max_accel_module_size w;
     g_hw_accel_engine := v; g_sw_accel_engine := g_sw_accel_engine w;
     g_accel_engine_module := g_accel_engine_module w;
     g_fini_cb_fn := g_fini_cb_fn w; g_fini_cb_arg := g_fini_cb_arg w;
     spdk_accel_module_list := spdk_accel_module_list w;
     mem := mem w; task_cb := task_cb w; io_devices := io_devices w;
     channels := channels w;
     cur_thread := cur_thread w; msgq := msgq w; trace := trace w |}.

Definition set_sw (v : option engine_ref) (w : world) : world :=
  {| g_max_accel_module_size := g_max_accel_module_size w;
     g_hw_accel_engine := g_hw_accel_engine w; g_sw_accel_engine := v;
     g_accel_engine_module := g_accel_engine_module w;
     g_fini_cb_fn := g_fini_cb_fn w; g_fini_cb_arg := g_fini_cb_arg w;
     spdk_accel_module_list := spdk_accel_module_list w;
     mem := mem w; task_cb := task_cb w; io_devices := io_devices w;
     channels := channels w;
     cur_thread := cur_thread w; msgq := msgq w; trace := trace w |}.

Definition set_cursor (v : option nat) (w : world) : world :=
  {| g_max_accel_module_size := g_max_accel_module_size w;
     g_hw_accel_engine := g_hw_accel_engine w; g_sw_accel_engine := g_sw_accel_engine w;
     g_accel_engine_module := v;
     g_fini_cb_fn := g_fini_cb_fn w; g_fini_cb_arg := g_fini_cb_arg w;
     spdk_accel_module_list := spdk_accel_module_list w;
     mem := mem w; task_cb := task_cb w; io_devices := io_devices w;
     channels := channels w;
     cur_thread := cur_thread w; msgq := msgq w; trace := trace w |}.

Definition set_fini_cb (fn : option Z) (arg : Z) (w : world) : world :=
  {| g_max_accel_module_size := g_max_accel_module_size w;
     g_hw_accel_engine := g_hw_accel_engine w; g_sw_accel_engine := g_sw_accel_engine w;
     g_accel_engine_module := g_accel_engine_module w;
     g_fini_cb_fn := fn; g_fini_cb_arg := arg;
     spdk_accel_module_list := spdk_accel_module_list w;
     mem := mem w; task_cb := task_cb w; io_devices := io_devices w;
     channels := channels w;
     cur_thread := cur_thread w; msgq := msgq w; trace := trace w |}.

Definition set_module_list (v : list spdk_accel_module_if) (w : world) : world :=
  {| g_max_accel_module_size := g_max_accel_module_size w;
     g_hw_accel_engine := g_hw_accel_engine w; g_sw_accel_engine := g_sw_accel_engine w;
     g_accel_engine_module := g_accel_engine_module w;
     g_fini_cb_fn := g_fini_cb_fn w; g_fini_cb_arg := g_fini_cb_arg w;
     spdk_accel_module_list := v;
     mem := mem w; task_cb := task_cb w; io_devices := io_devices w;
     channels := channels w;
     cur_thread := cur_thread w; msgq := msgq w; trace := trace w |}.

Definition set_mem (v : memory) (w : world) : world :=
  {| g_max_accel_module_size := g_max_accel_module_size w;
     g_hw_accel_engine := g_hw_accel_engine w; g_sw_accel_engine := g_sw_accel_engine w;
     g_accel_engine_module := g_accel_engine_module w;
     g_fini_cb_fn := g_fini_cb_fn w; g_fini_cb_arg := g_fini_cb_arg w;
     spdk_accel_module_list := spdk_accel_module_list w;
     mem := v; task_cb := task_cb w; io_devices := io_devices w;
     channels := channels w;
     cur_thread := cur_thread w; msgq := msgq w; trace := trace w |}.

Definition set_task_cb (v : gmap Z Z) (w : world) : world :=
  {| g_max_accel_module_size := g_max_accel_module_size w;
     g_hw_accel_engine := g_hw_accel_engine w; g_sw_accel_engine := g_sw_accel_engine w;
     g_accel_engine_module := g_accel_engine_module w;
     g_fini_cb_fn := g_fini_cb_fn w; g_fini_cb_arg := g_fini_cb_arg w;
     spdk_accel_module_list := spdk_accel_module_list w;
     mem := mem w; task_cb := v; io_devices := io_devices w;
     channels := channels w;
     cur_thread := cur_thread w; msgq := msgq w; trace := trace w |}.

Definition set_io_devices (v : list io_device) (w : world) : world :=
  {| g_max_accel_module_size := g_max_accel_module_size w;
     g_hw_accel_engine := g_hw_accel_engine w; g_sw_accel_engine := g_sw_accel_engine w;
     g_accel_engine_module := g_accel_engine_module w;
     g_fini_cb_fn := g_fini_cb_fn w; g_fini_cb_arg := g_fini_cb_arg w;
     spdk_accel_module_list := spdk_accel_module_list w;
     mem := mem w; task_cb := task_cb w; io_devices := v;
     channels := channels w;
     cur_thread := cur_thread w; msgq := msgq w; trace := trace w |}.

Definition set_channels (v : gmap (io_device * Z) spdk_io_channel) (w : world) : world :=
  {| g_max_accel_module_size := g_max_accel_module_size w;
     g_hw_accel_engine := g_hw_accel_engine w; g_sw_accel_engine := g_sw_accel_engine w;
     g_accel_engine_module := g_accel_engine_module w;
     g_fini_cb_fn := g_fini_cb_fn w; g_fini_cb_arg := g_fini_cb_arg w;
     spdk_accel_module_list := spdk_accel_module_list w;
     mem := mem w; task_cb := task_cb w; io_devices := io_devices w;
     channels := v;
     cur_thread := cur_thread w; msgq := msgq w; trace := trace w |}.

Definition set_msgq (v : list fini_hook) (w : world) : world :=
  {| g_max_accel_module_size := g_max_accel_module_size w;
     g_hw_accel_engine := g_hw_accel_engine w; g_sw_accel_engine := g_sw_accel_engine w;
     g_accel_engine_module := g_accel_engine_module w;
     g_fini_cb_fn := g_fini_cb_fn w; g_fini_cb_arg := g_fini_cb_arg w;
     spdk_accel_module_list := spdk_accel_module_list w;
     mem := mem w; task_cb := task_cb w; io_devices := io_devices w;
     channels := channels w;
     cur_thread := cur_thread w; msgq := v; trace := trace w |}.

Definition set_trace (v : list event) (w : world) : world :=
  {| g_max_accel_module_size := g_max_accel_module_size w;
     g_hw_accel_engine := g_hw_accel_engine w; g_sw_accel_engine := g_sw_accel_engine w;
     g_accel_engine_module := g_accel_engine_module w;
     g_fini_cb_fn := g_fini_cb_fn w; g_fini_cb_arg := g_fini_cb_arg w;
     spdk_accel_module_list := spdk_accel_module_list w;
     mem := mem w; task_cb := task_cb w; io_devices := io_devices w;
     channels := channels w;
     cur_thread := cur_thread w; msgq := msgq w; trace := v |}.

(** ** The monad of the framework: state, and the ways a call can abort *)

Inductive fault :=
| NullCall        (* call through a NULL function pointer *)
| NullDeref       (* access through a NULL pointer *)
| AssertFailed    (* assert() *)
| BadChannel.     (* a handle that is no live framework channel *)

Inductive outcome (A : Type) :=
| Ok (a : A) (w : world)
| Crash (f : fault).
Arguments Ok {A} a w.
Arguments Crash {A} f.

Definition M (A : Type) : Type := world -> outcome A.

Definition ret {A} (a : A) : M A := fun w => Ok a w.

Definition bind {A B} (c : M A) (k : A -> M B) : M B :=
  fun w => match c w with
           | Ok a w' => k a w'
           | Crash f => Crash f
           end.

Definition gets {A} (f : world -> A) : M A := fun w => Ok (f w) w.
Definition modify (f : world -> world) : M unit := fun w => Ok tt (f w).
Definition crash {A} (f : fault) : M A := fun _ => Crash f.

Notation "x <- c1 ;; c2" := (bind c1 (fun x => c2))
  (at level 100, c1 at next level, right associativity).
Notation "c1 ;; c2" := (bind c1 (fun _ => c2))
  (at level 100, right associativity).

Definition emit (e : event) : M unit :=
  modify (fun w => set_trace (trace w ++ [e]) w).

Definition c_assert (b : bool) : M unit :=
  if b then ret tt else crash AssertFailed.

(** The result and the final state of a run that did not abort. *)
Definition result_of {A} (o : outcome A) : option A :=
  match o with Ok a _ => Some a | Crash _ => None end.

Definition world_of {A} (o : outcome A) : option world :=
  match o with Ok _ w => Some w | Crash _ => None end.

(** ** The thread library *)

(** Modelled from the spec: [spdk_io_device_register] and
    [spdk_io_device_unregister] of the thread library (lib/thread), which
    enter a device into, and remove it from, the set of the devices that
    can hand out channels. *)
Definition spdk_io_device_register (d : io_device) : M unit :=
  modify (fun w => set_io_devices (d :: io_devices w) w).

Definition spdk_io_device_unregister (d : io_device) : M unit :=
  modify (fun w => set_io_devices (filter (fun d' => d' <> d) (io_devices w)) w).

(** The context buffer of a fresh channel, as [calloc] leaves it. *)
Definition fresh_channel : spdk_io_channel :=
  {| chan_ref := 1; chan_ctx := {| engine := None; ch := None |} |}.

Definition channel_get (c : spdk_io_channel) : spdk_io_channel :=
  {| chan_ref := S (chan_ref c); chan_ctx := chan_ctx c |}.

(** Modelled from the spec: [spdk_get_io_channel] of the thread library,
    which lazily creates (or returns the cached) per-thread channel of a
    device: the channel of the calling thread is returned with one more
    reference when there is one, and is otherwise allocated and handed to
    the create callback of the device, whose failure releases it. A device
    that is not registered has no channel. *)
Definition spdk_get_io_channel (d : io_device) (create_cb : io_device * Z -> M Z)
  : M (option chan_ptr) :=
  devs <- gets io_devices ;;
  if bool_decide (d ∈ devs) then
    t <- gets cur_thread ;;
    chans <- gets channels ;;
    match chans !! (d, t) with
    | Some c =>
        modify (set_channels (<[(d, t) := channel_get c]> chans)) ;;
        ret (Some (io_chan d t))
    | None =>
        modify (set_channels (<[(d, t) := fresh_channel]> chans)) ;;
        rc <- create_cb (d, t) ;;
        if rc =? 0 then ret (Some (io_chan d t))
        else modify (fun w => set_channels (delete (d, t) (channels w)) w) ;;
             ret None
    end
  else ret None.

(** Modelled from the spec: [spdk_io_channel_get_ctx], the address of the
    context buffer of a channel, which is named like the channel. *)
Definition spdk_io_channel_get_ctx (c : chan_ptr) : chan_ptr := c.

(** A read through a [struct accel_io_channel *]. *)
Definition load_accel_ch (accel_ch : chan_ptr) : M accel_io_channel :=
  match accel_ch with
  | io_chan accel_dev t =>
      chans <- gets channels ;;
      match chans !! (accel_dev, t) with
      | Some r => ret (chan_ctx r)
      | None => crash BadChannel
      end
  | _ => crash BadChannel
  end.

(** Modelled from the spec: [spdk_thread_send_msg(spdk_get_thread(), fn,
    NULL)], which queues [fn] on the calling thread; the message runs
    later, from the thread's message loop. *)
Definition spdk_thread_send_msg (fn : fini_hook) : M unit :=
  t <- gets cur_thread ;;
  emit (EvSendMsg t fn) ;;
  modify (fun w => set_msgq (msgq w ++ [fn]) w).

(** ** The engine contract *)

(** A completion callback as an engine receives it. *)
Definition completion_fn : Type := Z -> Z -> M unit.

(** [struct spdk_accel_engine]: the five operations and the channel
    request. The capability query and the batch entry points, which the
    software engine leaves NULL, are left out. *)
Record spdk_accel_engine := {
  copy : Z -> option chan_ptr -> Z -> Z -> Z -> completion_fn -> M Z;
  dualcast : Z -> option chan_ptr -> Z -> Z -> Z -> Z -> completion_fn -> M Z;
  compare : Z -> option chan_ptr -> Z -> Z -> Z -> completion_fn -> M Z;
  fill : Z -> option chan_ptr -> Z -> byte -> Z -> completion_fn -> M Z;
  crc32c : Z -> option chan_ptr -> Z -> Z -> Z -> Z -> completion_fn -> M Z;
  get_io_channel : M (option chan_ptr);
}.

(** Writes to the fields of the context buffer [ctx_buf]. *)
Definition with_ch (c : option chan_ptr) (r : spdk_io_channel) : spdk_io_channel :=
  {| chan_ref := chan_ref r;
     chan_ctx := {| engine := engine (chan_ctx r); ch := c |} |}.

Definition with_engine (e : option engine_ref) (r : spdk_io_channel) : spdk_io_channel :=
  {| chan_ref := chan_ref r;
     chan_ctx := {| engine := e; ch := ch (chan_ctx r) |} |}.

Definition ctx_set_ch (ctx_buf : io_device * Z) (c : option chan_ptr) : M unit :=
  modify (fun w => set_channels (alter (with_ch c) ctx_buf (channels w)) w).

Definition ctx_set_engine (ctx_buf : io_device * Z) (e : option engine_ref) : M unit :=
  modify (fun w => set_channels (alter (with_engine e) ctx_buf (channels w)) w).

(** ** What engine code may touch *)

(** Every run of [c] that returns relates the states before and after by
    [R]. *)
Definition keeps {A} (R : world -> world -> Prop) (c : M A) : Prop :=
  forall w a w', c w = Ok a w' -> R w w'.

(** The channel table of the two devices of this file is as before. *)
Definition same_channels (w w' : world) : Prop := channels w' = channels w.

(** So are the engine slots, the registered devices and the thread. *)
Definition same_framework (w w' : world) : Prop :=
  g_hw_accel_engine w' = g_hw_accel_engine w
  /\ g_sw_accel_engine w' = g_sw_accel_engine w
  /\ io_devices w' = io_devices w
  /\ channels w' = channels w
  /\ cur_thread w' = cur_thread w.

(** The code of a hardware module keeps its hands off the framework: its
    channels are its own, and its operations reach the channel table only
    through the callback they are given. *)
Record hw_contract (e : spdk_accel_engine) : Prop := {
  hw_get_io_channel : keeps same_framework (get_io_channel e);
  hw_copy : forall a c d s n cb,
    (forall r st, keeps same_channels (cb r st)) ->
    keeps same_channels (copy e a c d s n cb);
  hw_dualcast : forall a c d1 d2 s n cb,
    (forall r st, keeps same_channels (cb r st)) ->
    keeps same_channels (dualcast e a c d1 d2 s n cb);
  hw_compare : forall a c s1 s2 n cb,
    (forall r st, keeps same_channels (cb r st)) ->
    keeps same_channels (compare e a c s1 s2 n cb);
  hw_fill : forall a c d v n cb,
    (forall r st, keeps same_channels (cb r st)) ->
    keeps same_channels (fill e a c d v n cb);
  hw_crc32c : forall a c d s seed n cb,
    (forall r st, keeps same_channels (cb r st)) ->
    keeps same_channels (crc32c e a c d s seed n cb);
}.

(** ** What the file takes from outside *)

(** The layout of [struct spdk_accel_task] (declared in
    spdk_internal/accel_engine.h), the checksum routine of spdk/crc32.h
    and the engine descriptors of the hardware modules. *)
Class platform := {
  (** [offsetof(struct spdk_accel_task, offload_ctx)] *)
  offload_ctx_offset : Z;
  (** [sizeof(struct spdk_accel_task)] *)
  sizeof_spdk_accel_task : Z;
  (** [spdk_crc32c_update(buf, len, crc)], as a function of the [len]
      bytes at [buf] and of the initial value *)
  spdk_crc32c_update : list byte -> Z -> Z;
  (** the descriptor behind the pointer [hw_engine_ref id] *)
  hw_engine : Z -> spdk_accel_engine;
}.

Section Framework.

Context {plat : platform}.

(** *** Registration of engines *)

Definition spdk_accel_hw_engine_register (accel_engine : option engine_ref) : M unit :=
  hw <- gets g_hw_accel_engine ;;
  match hw with
  | None => modify (set_hw accel_engine)
  | Some _ => emit (EvNoticeLog "Hardware offload engine already enabled")
  end.

Definition accel_sw_register (accel_engine : option engine_ref) : M unit :=
  sw <- gets g_sw_accel_engine ;;
  c_assert (bool_decide (sw = None)) ;;
  modify (set_sw accel_engine).

Definition accel_sw_unregister : M unit :=
  modify (set_sw None).

(** *** The dispatcher *)

(** [req->cb(req, status)]: the call of the caller's callback is an event. *)
Definition _accel_engine_done (ref status : Z) : M unit :=
  tasks <- gets task_cb ;;
  match tasks !! ref with
  | Some cb => emit (EvCompletion cb ref status)
  | None => crash NullCall
  end.

(** [accel_req->cb = cb] *)
Definition accel_req_set_cb (accel_req cb : Z) : M unit :=
  modify (fun w => set_task_cb (<[accel_req := cb]> (task_cb w)) w).

(** [accel_req->offload_ctx] *)
Definition offload_ctx (accel_req : Z) : Z := wrap64 (accel_req + offload_ctx_offset).

(** *** The software engine *)

(** [(uintptr_t)cb_arg - offsetof(struct spdk_accel_task, offload_ctx)] *)
Definition accel_req_of (cb_arg : Z) : Z := wrap64 (cb_arg - offload_ctx_offset).

Definition sw_accel_submit_copy (cb_arg : Z) (c : option chan_ptr) (dst src nbytes : Z)
    (cb : completion_fn) : M Z :=
  modify (fun w => set_mem (memcpy (mem w) dst src nbytes) w) ;;
  let accel_req := accel_req_of cb_arg in
  cb accel_req 0 ;;
  ret 0.

Definition sw_accel_submit_dualcast (cb_arg : Z) (c : option chan_ptr)
    (dst1 dst2 src nbytes : Z) (cb : completion_fn) : M Z :=
  modify (fun w => set_mem (memcpy (mem w) dst1 src nbytes) w) ;;
  modify (fun w => set_mem (memcpy (mem w) dst2 src nbytes) w) ;;
  let accel_req := accel_req_of cb_arg in
  cb accel_req 0 ;;
  ret 0.

Definition sw_accel_submit_compare (cb_arg : Z) (c : option chan_ptr) (src1 src2 nbytes : Z)
    (cb : completion_fn) : M Z :=
  result <- gets (fun w => memcmp (mem w) src1 src2 nbytes) ;;
  let accel_req := accel_req_of cb_arg in
  cb accel_req result ;;
  ret 0.

Definition sw_accel_submit_fill (cb_arg : Z) (c : option chan_ptr) (dst : Z) (v : byte)
    (nbytes : Z) (cb : completion_fn) : M Z :=
  modify (fun w => set_mem (memset (mem w) dst v nbytes) w) ;;
  let accel_req := accel_req_of cb_arg in
  cb accel_req 0 ;;
  ret 0.

Definition sw_accel_submit_crc32c (cb_arg : Z) (c : option chan_ptr) (dst src seed nbytes : Z)
    (cb : completion_fn) : M Z :=
  modify (fun w =>
    set_mem (store_u32 (mem w) dst
               (wrap32 (spdk_crc32c_update (read_bytes (mem w) src (Z.to_nat nbytes))
                                           (not32 seed)))) w) ;;
  let accel_req := accel_req_of cb_arg in
  cb accel_req 0 ;;
  ret 0.

Definition sw_accel_create_cb (ctx_buf : io_device * Z) : M Z := ret 0.

Definition sw_accel_get_io_channel : M (option chan_ptr) :=
  spdk_get_io_channel sw_dev sw_accel_create_cb.

Definition sw_accel_engine : spdk_accel_engine :=
  {| copy := sw_accel_submit_copy;
     dualcast := sw_accel_submit_dualcast;
     compare := sw_accel_submit_compare;
     fill := sw_accel_submit_fill;
     crc32c := sw_accel_submit_crc32c;
     get_io_channel := sw_accel_get_io_channel |}.

(** The descriptor behind an engine pointer. *)
Definition engine_at (e : engine_ref) : spdk_accel_engine :=
  match e with
  | sw_accel_engine_ref => sw_accel_engine
  | hw_engine_ref id => hw_engine id
  end.

(** [accel_ch->engine->...]: the descriptor of the engine a channel is
    bound to. *)
Definition bound_engine (ctx : accel_io_channel) : M spdk_accel_engine :=
  match engine ctx with
  | Some e => ret (engine_at e)
  | None => crash NullDeref
  end.

Definition spdk_accel_submit_copy (accel_req : Z) (c : chan_ptr) (dst src nbytes : Z)
    (cb : Z) : M Z :=
  let accel_ch := spdk_io_channel_get_ctx c in
  accel_req_set_cb accel_req cb ;;
  ctx <- load_accel_ch accel_ch ;;
  e <- bound_engine ctx ;;
  copy e (offload_ctx accel_req) (ch ctx) dst src nbytes _accel_engine_done.

Definition spdk_accel_submit_dualcast (accel_req : Z) (c : chan_ptr)
    (dst1 dst2 src nbytes : Z) (cb : Z) : M Z :=
  let accel_ch := spdk_io_channel_get_ctx c in
  if negb (Z.land (wrap64 dst1) (ALIGN_4K - 1) =? 0)
     || negb (Z.land (wrap64 dst2) (ALIGN_4K - 1) =? 0)
  then
    emit (EvErrLog "Dualcast requires 4K alignment on dst addresses") ;;
    ret (- EINVAL)
  else
    accel_req_set_cb accel_req cb ;;
    ctx <- load_accel_ch accel_ch ;;
    e <- bound_engine ctx ;;
    dualcast e (offload_ctx accel_req) (ch ctx) dst1 dst2 src nbytes _accel_engine_done.

Definition spdk_accel_submit_compare (accel_req : Z) (c : chan_ptr) (src1 src2 nbytes : Z)
    (cb : Z) : M Z :=
  let accel_ch := spdk_io_channel_get_ctx c in
  accel_req_set_cb accel_req cb ;;
  ctx <- load_accel_ch accel_ch ;;
  e <- bound_engine ctx ;;
  compare e (offload_ctx accel_req) (ch ctx) src1 src2 nbytes _accel_engine_done.

Definition spdk_accel_submit_fill (accel_req : Z) (c : chan_ptr) (dst : Z) (v : byte)
    (nbytes : Z) (cb : Z) : M Z :=
  let accel_ch := spdk_io_channel_get_ctx c in
  accel_req_set_cb accel_req cb ;;
  ctx <- load_accel_ch accel_ch ;;
  e <- bound_engine ctx ;;
  fill e (offload_ctx accel_req) (ch ctx) dst v nbytes _accel_engine_done.

Definition spdk_accel_submit_crc32c (accel_req : Z) (c : chan_ptr) (dst src seed nbytes : Z)
    (cb : Z) : M Z :=
  let accel_ch := spdk_io_channel_get_ctx c in
  accel_req_set_cb accel_req cb ;;
  ctx <- load_accel_ch accel_ch ;;
  e <- bound_engine ctx ;;
  crc32c e (offload_ctx accel_req) (ch ctx) dst src seed nbytes _accel_engine_done.

(** *** The module registry *)

Definition spdk_accel_task_size : M Z :=
  gets g_max_accel_module_size.

Definition spdk_accel_module_list_add (accel_module : spdk_accel_module_if) : M unit :=
  modify (fun w => set_module_list (spdk_accel_module_list w ++ [accel_module]) w) ;;
  cur <- gets g_max_accel_module_size ;;
  match get_ctx_size accel_module with
  | Some sz => if sz >? cur then modify (set_max_size sz) else ret tt
  | None => ret tt
  end.

(** *** Channels *)

(** The software half of [accel_engine_create_cb]. *)
Definition create_sw_channel (ctx_buf : io_device * Z) : M Z :=
  sw <- gets g_sw_accel_engine ;;
  match sw with
  | None => crash NullDeref
  | Some s =>
      c <- get_io_channel (engine_at s) ;;
      ctx_set_ch ctx_buf c ;;
      c_assert (bool_decide (c <> None)) ;;
      sw' <- gets g_sw_accel_engine ;;
      ctx_set_engine ctx_buf sw' ;;
      ret 0
  end.

Definition accel_engine_create_cb (ctx_buf : io_device * Z) : M Z :=
  hw <- gets g_hw_accel_engine ;;
  match hw with
  | Some h =>
      c <- get_io_channel (engine_at h) ;;
      ctx_set_ch ctx_buf c ;;
      match c with
      | Some _ =>
          hw' <- gets g_hw_accel_engine ;;
          ctx_set_engine ctx_buf hw' ;;
          ret 0
      | None => create_sw_channel ctx_buf
      end
  | None => create_sw_channel ctx_buf
  end.

Definition spdk_accel_engine_get_io_channel : M (option chan_ptr) :=
  spdk_get_io_channel accel_dev accel_engine_create_cb.

(** *** Start-up *)

Definition sw_accel_engine_init : M Z :=
  accel_sw_register (Some sw_accel_engine_ref) ;;
  spdk_io_device_register sw_dev ;;
  ret 0.

(** [accel_engine_module->module_init()]: the hook of the software module
    is in this file, the hook of another module is an event. *)
Definition call_module_init (h : init_hook) : M unit :=
  match h with
  | sw_accel_engine_init_hook => sw_accel_engine_init ;; ret tt
  | module_init_hook _ => emit (EvModuleInit h)
  end.

Fixpoint accel_engine_module_initialize_from (l : list spdk_accel_module_if) : M unit :=
  match l with
  | [] => ret tt
  | accel_engine_module :: l' =>
      call_module_init (module_init accel_engine_module) ;;
      accel_engine_module_initialize_from l'
  end.

Definition accel_engine_module_initialize : M unit :=
  l <- gets spdk_accel_module_list ;;
  accel_engine_module_initialize_from l.

Definition spdk_accel_engine_initialize : M Z :=
  emit (EvNoticeLog "Accel engine initialized to use software engine.") ;;
  accel_engine_module_initialize ;;
  spdk_io_device_register accel_dev ;;
  ret 0.

(** The module that [SPDK_ACCEL_MODULE_REGISTER] declares at the end of
    the file. *)
Definition sw_accel_module : spdk_accel_module_if :=
  {| module_init := sw_accel_engine_init_hook;
     module_fini := Some sw_accel_engine_fini_hook;
     get_ctx_size := Some sizeof_spdk_accel_task |}.

(** *** Shutdown *)

Definition accel_engine_module_finish_cb : M unit :=
  cb_fn <- gets g_fini_cb_fn ;;
  arg <- gets g_fini_cb_arg ;;
  match cb_fn with
  | Some f => emit (EvFiniCb f arg)
  | None => crash NullCall
  end ;;
  modify (set_fini_cb None 0).

(** [spdk_accel_engine_module_finish] once the cursor has been advanced to
    position [i], where [rest] is the module list from that position on.
    The call the C function makes to itself for a module without a hook
    finds the cursor at [i] and advances it to [S i]. *)
Fixpoint module_finish_at (rest : list spdk_accel_module_if) (i : nat) : M unit :=
  match rest with
  | [] =>
      modify (set_cursor None) ;;
      accel_engine_module_finish_cb
  | m :: rest' =>
      modify (set_cursor (Some i)) ;;
      match module_fini m with
      | Some fn => spdk_thread_send_msg fn
      | None => module_finish_at rest' (S i)
      end
  end.

(** [TAILQ_FIRST] or [TAILQ_NEXT] of the cursor. *)
Definition next_position (cursor : option nat) : nat :=
  match cursor with
  | None => O
  | Some i => S i
  end.

Definition spdk_accel_engine_module_finish : M unit :=
  cursor <- gets g_accel_engine_module ;;
  l <- gets spdk_accel_module_list ;;
  module_finish_at (drop (next_position cursor) l) (next_position cursor).

Definition spdk_accel_engine_finish (cb_fn : option Z) (cb_arg : Z) : M unit :=
  c_assert (bool_decide (cb_fn <> None)) ;;
  modify (set_fini_cb cb_fn cb_arg) ;;
  spdk_io_device_unregister accel_dev ;;
  spdk_accel_engine_module_finish.

Definition sw_accel_engine_fini : M unit :=
  spdk_io_device_unregister sw_dev ;;
  accel_sw_unregister ;;
  spdk_accel_engine_module_finish.

(** The body of a finalization hook. The hook of another module tears the
    module down and, by its contract, signals that it is done by a call of
    [spdk_accel_engine_module_finish]. *)
Definition run_fini_hook (fn : fini_hook) : M unit :=
  match fn with
  | sw_accel_engine_fini_hook => sw_accel_engine_fini
  | module_fini_hook _ => spdk_accel_engine_module_finish
  end.

(** Modelled from the spec: one turn of the message loop of the thread,
    which takes the oldest message and runs it. *)
Definition thread_poll : M unit :=
  q <- gets msgq ;;
  match q with
  | [] => ret tt
  | fn :: q' =>
      modify (set_msgq q') ;;
      emit (EvMsgRun fn) ;;
      run_fini_hook fn
  end.

Fixpoint thread_poll_n (k : nat) : M unit :=
  match k with
  | O => ret tt
  | S k' => thread_poll ;; thread_poll_n k'
  end.

(** The state in which the process starts. *)
Definition initial_world : world :=
  {| g_max_accel_module_size := 0;
     g_hw_accel_engine := None; g_sw_accel_engine := None;
     g_accel_engine_module := None;
     g_fini_cb_fn := None; g_fini_cb_arg := 0;
     spdk_accel_module_list := [];
     mem := fun _ => x00; task_cb := ∅; io_devices := [];
     channels := ∅; cur_thread := 1; msgq := []; trace := [] |}.

(** ** Reference notions of the specification *)

(** The three-way comparison of two byte strings: the order of the first
    pair of bytes that differ, read as unsigned, and [Eq] without one. *)
Fixpoint three_way (l1 l2 : list byte) : comparison :=
  match l1, l2 with
  | a :: l1', b :: l2' =>
      match Z.compare (Z_of_byte a) (Z_of_byte b) with
      | Eq => three_way l1' l2'
      | c => c
      end
  | _, _ => Eq
  end.

(** The largest context size that the modules of a list report, 0 when
    none reports one. *)
Definition max_ctx_size (l : list spdk_accel_module_if) : Z :=
  foldr (fun m acc => Z.max (default 0 (get_ctx_size m)) acc) 0 l.

(** The finalization hooks of a module list, in registration order. *)
Definition fini_hooks (l : list spdk_accel_module_if) : list fini_hook :=
  omap module_fini l.

(** A channel pointer names a framework channel whose context is [ctx]. *)
Definition channel_ctx (w : world) (c : chan_ptr) (ctx : accel_io_channel) : Prop :=
  exists t r, c = io_chan accel_dev t /\ channels w !! (accel_dev, t) = Some r
              /\ chan_ctx r = ctx.

(** The engine that the framework channel of thread [t] is bound to. *)
Definition binding (w : world) (t : Z) : option engine_ref :=
  match channels w !! (accel_dev, t) with
  | Some r => engine (chan_ctx r)
  | None => None
  end.

(** ** Call sequences *)

(** A sequence of hardware registrations, one call per descriptor. *)
Fixpoint register_all (calls : list engine_ref) : M unit :=
  match calls with
  | [] => ret tt
  | e :: rest => spdk_accel_hw_engine_register (Some e) ;; register_all rest
  end.

(** A sequence of module registrations. *)
Fixpoint register_modules (ms : list spdk_accel_module_if) : M unit :=
  match ms with
  | [] => ret tt
  | m :: rest => spdk_accel_module_list_add m ;; register_modules rest
  end.

(** What a shutdown is seen to do on thread [t] when the hooks [hooks]
    are pending and the message loop takes [k] turns: each hook is sent
    to the thread, and the next one only after the message loop has run
    the one before; the final callback comes after the last. *)
Fixpoint fini_events (cb_fn cb_arg t : Z) (hooks : list fini_hook) (k : nat) : list event :=
  match hooks with
  | [] => [EvFiniCb cb_fn cb_arg]
  | h :: hs =>
      EvSendMsg t h ::
      match k with
      | O => []
      | S k' => EvMsgRun h :: fini_events cb_fn cb_arg t hs k'
      end
  end.

Definition is_fini_cb (e : event) : bool :=
  match e with EvFiniCb _ _ => true | _ => false end.

Definition hw_notice : event := EvNoticeLog "Hardware offload engine already enabled".

(** The state of a shutdown in progress: the final callback is pending
    and [hs] are the hooks of the modules behind the cursor. *)
Record finishing (cb_fn cb_arg : Z) (hs : list fini_hook) (w : world) : Prop := {
  fin_cb : g_fini_cb_fn w = Some cb_fn;
  fin_arg : g_fini_cb_arg w = cb_arg;
  fin_rest : fini_hooks (drop (next_position (g_accel_engine_module w))
                              (spdk_accel_module_list w)) = hs;
}.

(** One advance of the cursor: with no hook left the final callback is
    called, otherwise the next hook is sent to the thread. *)
Definition advanced (cb_fn cb_arg : Z) (hs : list fini_hook) (w w' : world) : Prop :=
  cur_thread w' = cur_thread w
  /\ match hs with
     | [] => trace w' = trace w ++ [EvFiniCb cb_fn cb_arg] /\ msgq w' = msgq w
     | h :: hs' =>
         trace w' = trace w ++ [EvSendMsg (cur_thread w) h]
         /\ msgq w' = msgq w ++ [h]
         /\ finishing cb_fn cb_arg hs' w'
     end.

(** The events of one hook: it is sent to the thread, then run. *)
Definition hook_events (t : Z) (h : fini_hook) : list event :=
  [EvSendMsg t h; EvMsgRun h].

(** ** Channel bindings over time *)

(** The software engine is registered: [sw_accel_engine_init] has run. *)
Definition sw_ready (w : world) : Prop :=
  g_sw_accel_engine w = Some sw_accel_engine_ref /\ sw_dev ∈ io_devices w.

(** The bindings that exist stay as they are. *)
Definition bindings_kept (w w' : world) : Prop :=
  forall t e, binding w t = Some e -> binding w' t = Some e.

(** No binding changes, but for the context buffer [key]. *)
Definition bindings_apart (key : io_device * Z) (w w' : world) : Prop :=
  forall t, (accel_dev, t) <> key -> binding w' t = binding w t.

(** The registered devices and the thread are as before, and the channel
    [key] is still there if it was. *)
Definition channel_stays (key : io_device * Z) (w w' : world) : Prop :=
  io_devices w' = io_devices w
  /\ cur_thread w' = cur_thread w
  /\ (is_Some (channels w !! key) -> is_Some (channels w' !! key)).

(** The calls that the framework takes, and the scheduler that lets
    another thread run. *)
Inductive api_call :=
| CallHwRegister (accel_engine : option engine_ref)
| CallModuleListAdd (accel_module : spdk_accel_module_if)
| CallInitialize
| CallGetIoChannel
| CallSubmitCopy (accel_req : Z) (c : chan_ptr) (dst src nbytes cb : Z)
| CallSubmitDualcast (accel_req : Z) (c : chan_ptr) (dst1 dst2 src nbytes cb : Z)
| CallSubmitCompare (accel_req : Z) (c : chan_ptr) (src1 src2 nbytes cb : Z)
| CallSubmitFill (accel_req : Z) (c : chan_ptr) (dst : Z) (v : byte) (nbytes cb : Z)
| CallSubmitCrc32c (accel_req : Z) (c : chan_ptr) (dst src seed nbytes cb : Z)
| CallFinish (cb_fn : option Z) (cb_arg : Z)
| CallThreadPoll
| CallSwitchThread (t : Z).

Definition set_cur_thread (t : Z) (w : world) : world :=
  {| g_max_accel_module_size := g_max_accel_module_size w;
     g_hw_accel_engine := g_hw_accel_engine w; g_sw_accel_engine := g_sw_accel_engine w;
     g_accel_engine_module := g_accel_engine_module w;
     g_fini_cb_fn := g_fini_cb_fn w; g_fini_cb_arg := g_fini_cb_arg w;
     spdk_accel_module_list := spdk_accel_module_list w;
     mem := mem w; task_cb := task_cb w; io_devices := io_devices w;
     channels := channels w;
     cur_thread := t; msgq := msgq w; trace := trace w |}.

Definition run_call (a : api_call) : M unit :=
  match a with
  | CallHwRegister e => spdk_accel_hw_engine_register e
  | CallModuleListAdd m => spdk_accel_module_list_add m
  | CallInitialize => spdk_accel_engine_initialize ;; ret tt
  | CallGetIoChannel => spdk_accel_engine_get_io_channel ;; ret tt
  | CallSubmitCopy r c dst src n cb => spdk_accel_submit_copy r c dst src n cb ;; ret tt
  | CallSubmitDualcast r c d1 d2 src n cb =>
      spdk_accel_submit_dualcast r c d1 d2 src n cb ;; ret tt
  | CallSubmitCompare r c s1 s2 n cb => spdk_accel_submit_compare r c s1 s2 n cb ;; ret tt
  | CallSubmitFill r c dst v n cb => spdk_accel_submit_fill r c dst v n cb ;; ret tt
  | CallSubmitCrc32c r c dst src seed n cb =>
      spdk_accel_submit_crc32c r c dst src seed n cb ;; ret tt
  | CallFinish cb_fn cb_arg => spdk_accel_engine_finish cb_fn cb_arg
  | CallThreadPoll => thread_poll
  | CallSwitchThread t => modify (set_cur_thread t)
  end.

Fixpoint run_calls (l : list api_call) : M unit :=
  match l with
  | [] => ret tt
  | a :: l' => run_call a ;; run_calls l'
  end.

End Framework.

(** ** The entries of the engine table beside the operations *)

(** The capability query and the batch entry points of
    [struct spdk_accel_engine]; an entry point that an engine does not
    have is NULL. A batch is named by its address. *)
Record spdk_accel_engine_rest := {
  get_capabilities : M Z;
  batch_get_max : option (M Z);
  batch_create : option (option chan_ptr -> M Z);
  batch_prep_copy :
    option (Z -> option chan_ptr -> Z -> Z -> Z -> Z -> completion_fn -> M Z);
  batch_submit : option (Z -> option chan_ptr -> Z -> completion_fn -> M Z);
}.

(** The capability flags of [enum accel_capability] (declared in
    spdk/accel_engine.h) and these entries of the hardware descriptors. *)
Class platform_rest := {
  ACCEL_COPY : Z;
  ACCEL_FILL : Z;
  ACCEL_CRC32C : Z;
  ACCEL_COMPARE : Z;
  ACCEL_DUALCAST : Z;
  hw_engine_rest : Z -> spdk_accel_engine_rest;
}.

Section FrameworkRest.

Context {plat : platform} {rest : platform_rest}.

Definition sw_accel_get_capabilities : M Z :=
  ret (wrap64 (Z.lor (Z.lor (Z.lor (Z.lor ACCEL_COPY ACCEL_FILL) ACCEL_CRC32C)
                            ACCEL_COMPARE)
                     ACCEL_DUALCAST)).

(** The entries of [sw_accel_engine]: the four batch entry points are
    NULL. *)
Definition sw_accel_engine_rest : spdk_accel_engine_rest :=
  {| get_capabilities := sw_accel_get_capabilities;
     batch_get_max := None;
     batch_create := None;
     batch_prep_copy := None;
     batch_submit := None |}.

Definition engine_rest_at (e : engine_ref) : spdk_accel_engine_rest :=
  match e with
  | sw_accel_engine_ref => sw_accel_engine_rest
  | hw_engine_ref id => hw_engine_rest id
  end.

(** [accel_ch->engine->...] for these entries. *)
Definition bound_engine_rest (ctx : accel_io_channel) : M spdk_accel_engine_rest :=
  match engine ctx with
  | Some e => ret (engine_rest_at e)
  | None => crash NullDeref
  end.

(** A call through a function pointer that may be NULL. *)
Definition call_entry {F A} (f : option F) (k : F -> M A) : M A :=
  match f with
  | Some fn => k fn
  | None => crash NullCall
  end.

Definition spdk_accel_get_capabilities (c : chan_ptr) : M Z :=
  let accel_ch := spdk_io_channel_get_ctx c in
  ctx <- load_accel_ch accel_ch ;;
  e <- bound_engine_rest ctx ;;
  get_capabilities e.

Definition spdk_accel_batch_create (c : chan_ptr) : M Z :=
  let accel_ch := spdk_io_channel_get_ctx c in
  ctx <- load_accel_ch accel_ch ;;
  e <- bound_engine_rest ctx ;;
  call_entry (batch_create e) (fun fn => fn (ch ctx)).

Definition spdk_accel_batch_submit (accel_req : Z) (c : chan_ptr) (batch cb : Z) : M Z :=
  let accel_ch := spdk_io_channel_get_ctx c in
  accel_req_set_cb accel_req cb ;;
  ctx <- load_accel_ch accel_ch ;;
  e <- bound_engine_rest ctx ;;
  call_entry (batch_submit e)
    (fun fn => fn (offload_ctx accel_req) (ch ctx) batch _accel_engine_done).

Definition spdk_accel_batch_get_max (c : chan_ptr) : M Z :=
  let accel_ch := spdk_io_channel_get_ctx c in
  ctx <- load_accel_ch accel_ch ;;
  e <- bound_engine_rest ctx ;;
  call_entry (batch_get_max e) (fun fn => fn).

Definition spdk_accel_batch_prep_copy (accel_req : Z) (c : chan_ptr)
    (batch dst src nbytes cb : Z) : M Z :=
  let accel_ch := spdk_io_channel_get_ctx c in
  accel_req_set_cb accel_req cb ;;
  ctx <- load_accel_ch accel_ch ;;
  e <- bound_engine_rest ctx ;;
  call_entry (batch_prep_copy e)
    (fun fn => fn (offload_ctx accel_req) (ch ctx) batch dst src nbytes _accel_engine_done).

End FrameworkRest.

(** ** Start-up and shutdown as they are seen *)

(** The events of the init hooks that are not in this file, in list
    order. *)
Fixpoint external_inits (l : list spdk_accel_module_if) : list event :=
  match l with
  | [] => []
  | m :: l' =>
      match module_init m with
      | sw_accel_engine_init_hook => external_inits l'
      | module_init_hook id => EvModuleInit (module_init_hook id) :: external_inits l'
      end
  end.

(** How many modules of a list have [sw_accel_engine_init] as init hook. *)
Fixpoint sw_init_count (l : list spdk_accel_module_if) : nat :=
  match l with
  | [] => O
  | m :: l' =>
      match module_init m with
      | sw_accel_engine_init_hook => S (sw_init_count l')
      | module_init_hook _ => sw_init_count l'
      end
  end.

Definition start_notice : event :=
  EvNoticeLog "Accel engine initialized to use software engine.".

(** The lifecycle state is as at process start. *)
Definition lifecycle_idle (w : world) : Prop :=
  g_accel_engine_module w = None
  /\ g_fini_cb_fn w = None
  /\ g_fini_cb_arg w = 0
  /\ msgq w = [].

(** No device is registered that was not. *)
Definition devices_shrink (w w' : world) : Prop :=
  forall d, d ∈ io_devices w' -> d ∈ io_devices w.

(** What a shutdown leaves alone: the module list, the cached context
    size and the hardware slot stay, no device appears, and an empty
    software slot stays empty. *)
Definition shutdown_keeps (w w' : world) : Prop :=
  spdk_accel_module_list w' = spdk_accel_module_list w
  /\ g_max_accel_module_size w' = g_max_accel_module_size w
  /\ g_hw_accel_engine w' = g_hw_accel_engine w
  /\ devices_shrink w w'
  /\ (g_sw_accel_engine w = None -> g_sw_accel_engine w' = None).

(** ** A concrete platform *)

(** One step of the bit-wise CRC32C (Castagnoli polynomial, reflected). *)
Definition crc32c_bit (crc : Z) : Z :=
  if Z.testbit crc 0 then Z.lxor (Z.shiftr crc 1) 0x82F63B78 else Z.shiftr crc 1.

Definition crc32c_byte (crc : Z) (b : byte) : Z :=
  Nat.iter 8 crc32c_bit (Z.lxor crc (Z_of_byte b)).

(** Modelled from the spec: the CRC32C that the software engine uses,
    which is [spdk_crc32c_update] of lib/util; it continues the checksum
    [crc] over a buffer and applies no final complement. *)
Definition crc32c_update (buf : list byte) (crc : Z) : Z :=
  fold_left crc32c_byte buf crc.

(** A hardware engine that copies like the software engine, completes at
    once, and has a channel for every device but device 0. *)
Definition demo_hw_engine (offset : Z) (id : Z) : spdk_accel_engine :=
  {| copy := fun cb_arg c dst src n cb =>
       modify (fun w => set_mem (memcpy (mem w) dst src n) w) ;;
       cb (wrap64 (cb_arg - offset)) 0 ;; ret 0;
     dualcast := fun cb_arg c dst1 dst2 src n cb =>
       modify (fun w => set_mem (memcpy (memcpy (mem w) dst1 src n) dst2 src n) w) ;;
       cb (wrap64 (cb_arg - offset)) 0 ;; ret 0;
     compare := fun cb_arg c src1 src2 n cb =>
       r <- gets (fun w => memcmp (mem w) src1 src2 n) ;;
       cb (wrap64 (cb_arg - offset)) r ;; ret 0;
     fill := fun cb_arg c dst v n cb =>
       modify (fun w => set_mem (memset (mem w) dst v n) w) ;;
       cb (wrap64 (cb_arg - offset)) 0 ;; ret 0;
     crc32c := fun cb_arg c dst src seed n cb =>
       modify (fun w =>
         set_mem (store_u32 (mem w) dst
                    (wrap32 (crc32c_update (read_bytes (mem w) src (Z.to_nat n))
                                           (not32 seed)))) w) ;;
       cb (wrap64 (cb_arg - offset)) 0 ;; ret 0;
     get_io_channel := ret (if id =? 0 then None else Some (hw_chan id)) |}.

Definition demo_platform : platform :=
  {| offload_ctx_offset := 8;
     sizeof_spdk_accel_task := 8;
     spdk_crc32c_update := crc32c_update;
     hw_engine := demo_hw_engine 8 |}.

(** A memory that holds at every address the low byte of the address. *)
Definition demo_mem : memory := fun a => byte_of_Z a.

(** The process after start-up on thread 1: the software engine is
    registered and the framework device is open. *)
Definition demo_world : world :=
  {| g_max_accel_module_size := 8;
     g_hw_accel_engine := None; g_sw_accel_engine := Some sw_accel_engine_ref;
     g_accel_engine_module := None;
     g_fini_cb_fn := None; g_fini_cb_arg := 0;
     spdk_accel_module_list :=
       [ {| module_init := module_init_hook 1; module_fini := None;
            get_ctx_size := None |};
         {| module_init := sw_accel_engine_init_hook;
            module_fini := Some sw_accel_engine_fini_hook;
            get_ctx_size := Some 8 |};
         {| module_init := module_init_hook 2; module_fini := Some (module_fini_hook 2);
            get_ctx_size := Some 64 |} ];
     mem := demo_mem; task_cb := ∅; io_devices := [accel_dev; sw_dev];
     channels := ∅; cur_thread := 1; msgq := []; trace := [] |}.

(** The same with a channel of thread 1 that is bound to the software
    engine. *)
Definition demo_ctx : accel_io_channel :=
  {| engine := Some sw_accel_engine_ref; ch := Some (io_chan sw_dev 1) |}.

Definition demo_world_sw : world :=
  set_channels
    (<[(accel_dev, 1) := {| chan_ref := 1; chan_ctx := demo_ctx |}]>
       (<[(sw_dev, 1) := fresh_channel]> ∅))
    demo_world.

(** Two modules that report 8 and 16 bytes of context. *)
Definition module_8 : spdk_accel_module_if :=
  {| module_init := module_init_hook 8; module_fini := None; get_ctx_size := Some 8 |}.

Definition module_16 : spdk_accel_module_if :=
  {| module_init := module_init_hook 16; module_fini := None; get_ctx_size := Some 16 |}.

(** Example values of the capability flags, one bit each, and hardware
    engines that have the batch size and the batch constructor but
    neither prep-copy nor submit. *)
Definition demo_platform_rest : platform_rest :=
  {| ACCEL_COPY := 1; ACCEL_FILL := 2; ACCEL_CRC32C := 32;
     ACCEL_COMPARE := 8; ACCEL_DUALCAST := 4;
     hw_engine_rest := fun id =>
       {| get_capabilities := ret 1;
          batch_get_max := Some (ret 16);
          batch_create := Some (fun _ => ret 0x5000);
          batch_prep_copy := None;
          batch_submit := None |} |}.

(** The example state before start-up: no engine in a slot, no device
    registered. *)
Definition demo_world_cold : world :=
  set_io_devices [] (set_sw None demo_world).

(** The example state with hardware engine 3 in the slot and a channel of
    thread 1 that is bound to it. *)
Definition demo_world_hw : world :=
  set_channels
    (<[(accel_dev, 1) :=
         {| chan_ref := 1;
            chan_ctx := {| engine := Some (hw_engine_ref 3); ch := Some (hw_chan 3) |} |}]> ∅)
    (set_hw (Some (hw_engine_ref 3)) demo_world).

(** The example state with a channel of the software engine and a memory
    in which every byte holds the number of its 4096-byte page. *)
Definition demo_world_pages : world :=
  set_mem (fun a => byte_of_Z (a / 4096)) demo_world_sw.

Section Properties.

Context {plat : platform}.

(** * Properties *)

(** ** Bytes and memory *)

Lemma Z_of_byte_range (b : byte) : 0 <= Z_of_byte b < 256.
Proof.
  unfold Z_of_byte. pose proof (Byte.to_N_bounded b) as H. lia.
Qed.

Lemma Z_of_byte_inj (a b : byte) : Z_of_byte a = Z_of_byte b -> a = b.
Proof.
  unfold Z_of_byte. intros H. apply N2Z.inj in H.
  assert (E : Byte.of_N (Byte.to_N a) = Byte.of_N (Byte.to_N b)) by (rewrite H; reflexivity).
  rewrite !Byte.of_to_N in E. congruence.
Qed.

Lemma Z_of_byte_of_Z (z : Z) : Z_of_byte (byte_of_Z z) = z mod 256.
Proof.
  unfold byte_of_Z, Z_of_byte.
  assert (R : 0 <= z mod 256 < 256) by (apply Z.mod_pos_bound; lia).
  destruct (Byte.of_N (Z.to_N (z mod 256))) as [b|] eqn:E.
  - apply Byte.to_of_N in E. rewrite E. lia.
  - apply Byte.of_N_None_iff in E. lia.
Qed.

Lemma store_eq (m : memory) a b : store m a b a = b.
Proof. unfold store. rewrite Z.eqb_refl. reflexivity. Qed.

Lemma store_ne (m : memory) a a' b : a' <> a -> store m a b a' = m a'.
Proof. unfold store. intros H. destruct (Z.eqb_spec a' a); congruence. Qed.

(** [memcpy] writes nowhere but into the destination. *)
Lemma memcpy_loop_frame k : forall (m : memory) dst src a,
  a < dst \/ dst + Z.of_nat k <= a -> memcpy_loop m dst src k a = m a.
Proof.
  induction k as [|k IH]; intros m dst src a H; simpl; [reflexivity|].
  rewrite IH by lia. apply store_ne. lia.
Qed.

(** With a source that the destination does not overlap, the destination
    receives the source bytes. *)
Lemma memcpy_loop_copies k : forall (m : memory) dst src i,
  disjoint dst src (Z.of_nat k) -> 0 <= i < Z.of_nat k ->
  memcpy_loop m dst src k (dst + i) = m (src + i).
Proof.
  induction k as [|k IH]; intros m dst src i D Hi; [lia|].
  simpl. destruct (Z.eq_dec i 0) as [->|Hne].
  - rewrite memcpy_loop_frame by lia. rewrite !Z.add_0_r. apply store_eq.
  - replace (dst + i) with (dst + 1 + (i - 1)) by lia.
    rewrite IH; [|unfold disjoint in *; lia|lia].
    rewrite store_ne; [f_equal; lia|]. unfold disjoint in D. lia.
Qed.

Lemma memcpy_frame (m : memory) dst src n a :
  a < dst \/ dst + n <= a -> memcpy m dst src n a = m a.
Proof.
  intros H. unfold memcpy. apply memcpy_loop_frame.
  destruct (Z.le_gt_cases 0 n); [rewrite Z2Nat.id by lia; lia|].
  replace (Z.to_nat n) with O by lia. simpl. lia.
Qed.

Lemma memcpy_copies (m : memory) dst src n i :
  disjoint dst src n -> 0 <= i < n -> memcpy m dst src n (dst + i) = m (src + i).
Proof.
  intros D Hi. unfold memcpy. apply memcpy_loop_copies; rewrite Z2Nat.id by lia; assumption.
Qed.

Lemma memcpy_source_kept (m : memory) dst src n i :
  disjoint dst src n -> 0 <= i < n -> memcpy m dst src n (src + i) = m (src + i).
Proof.
  intros D Hi. apply memcpy_frame. unfold disjoint in D. lia.
Qed.

Lemma memset_loop_frame k : forall (m : memory) dst c a,
  a < dst \/ dst + Z.of_nat k <= a -> memset_loop m dst c k a = m a.
Proof.
  induction k as [|k IH]; intros m dst c a H; simpl; [reflexivity|].
  rewrite IH by lia. apply store_ne. lia.
Qed.

Lemma memset_loop_fills k : forall (m : memory) dst c i,
  0 <= i < Z.of_nat k -> memset_loop m dst c k (dst + i) = c.
Proof.
  induction k as [|k IH]; intros m dst c i Hi; [lia|].
  simpl. destruct (Z.eq_dec i 0) as [->|Hne].
  - rewrite memset_loop_frame by lia. rewrite Z.add_0_r. apply store_eq.
  - replace (dst + i) with (dst + 1 + (i - 1)) by lia. apply IH. lia.
Qed.

(** [memcmp] is 0 exactly on equal regions. *)
Lemma memcmp_loop_zero k : forall (m : memory) s1 s2,
  memcmp_loop m s1 s2 k = 0 <->
  (forall i, 0 <= i < Z.of_nat k -> m (s1 + i) = m (s2 + i)).
Proof.
  induction k as [|k IH]; intros m s1 s2; simpl memcmp_loop.
  - split; [intros _ i Hi; lia|reflexivity].
  - destruct (Z.eqb_spec (Z_of_byte (m s1)) (Z_of_byte (m s2))) as [E|E].
    + rewrite IH. split; intros H i Hi.
      * destruct (Z.eq_dec i 0) as [->|Hne].
        -- rewrite !Z.add_0_r. apply Z_of_byte_inj, E.
        -- replace (s1 + i) with (s1 + 1 + (i - 1)) by lia.
           replace (s2 + i) with (s2 + 1 + (i - 1)) by lia. apply H. lia.
      * replace (s1 + 1 + i) with (s1 + (i + 1)) by lia.
        replace (s2 + 1 + i) with (s2 + (i + 1)) by lia. apply H. lia.
    + split; [lia|]. intros H. exfalso. apply E.
      specialize (H 0). rewrite !Z.add_0_r in H. rewrite H by lia. reflexivity.
Qed.

Lemma memcmp_zero (m : memory) s1 s2 n :
  memcmp m s1 s2 n = 0 <-> (forall i, 0 <= i < n -> m (s1 + i) = m (s2 + i)).
Proof.
  unfold memcmp. rewrite memcmp_loop_zero. split; intros H i Hi; apply H; lia.
Qed.

Lemma memcmp_loop_three_way k : forall (m : memory) s1 s2,
  Z.compare (memcmp_loop m s1 s2 k) 0 = three_way (read_bytes m s1 k) (read_bytes m s2 k).
Proof.
  induction k as [|k IH]; intros m s1 s2; simpl; [reflexivity|].
  destruct (Z.eqb_spec (Z_of_byte (m s1)) (Z_of_byte (m s2))) as [E|E].
  - rewrite E, Z.compare_refl. apply IH.
  - rewrite <- Z.compare_sub.
    destruct (Z.compare_spec (Z_of_byte (m s1)) (Z_of_byte (m s2))); congruence.
Qed.

Lemma memcmp_same (m : memory) s n : memcmp m s s n = 0.
Proof. apply memcmp_zero. reflexivity. Qed.

(** ** Words *)

Lemma load_store_u32 (m : memory) p v : load_u32 (store_u32 m p v) p = wrap32 v.
Proof.
  unfold load_u32, store_u32.
  rewrite store_ne, store_ne, store_ne, store_eq by lia.
  rewrite store_ne, store_ne, store_eq by lia.
  rewrite store_ne, store_eq by lia.
  rewrite store_eq.
  rewrite !Z_of_byte_of_Z, !Z.shiftl_mul_pow2, !Z.shiftr_div_pow2 by lia.
  unfold wrap32.
  change (2 ^ 8) with 256; change (2 ^ 16) with 65536;
    change (2 ^ 24) with 16777216; change (2 ^ 32) with 4294967296.
  pose proof (Z.div_mod v 256 ltac:(lia)) as E0.
  pose proof (Z.div_mod (v / 256) 256 ltac:(lia)) as E1.
  pose proof (Z.div_mod (v / 65536) 256 ltac:(lia)) as E2.
  pose proof (Z.div_mod (v / 16777216) 256 ltac:(lia)) as E3.
  rewrite Z.div_div in E1 by lia. change (256 * 256) with 65536 in E1.
  replace (v / 65536 / 256) with (v / 16777216) in E2
    by (rewrite Z.div_div by lia; reflexivity).
  replace (v / 16777216 / 256) with (v / 4294967296) in E3
    by (rewrite Z.div_div by lia; reflexivity).
  pose proof (Z.mod_pos_bound v 256 ltac:(lia)).
  pose proof (Z.mod_pos_bound (v / 256) 256 ltac:(lia)).
  pose proof (Z.mod_pos_bound (v / 65536) 256 ltac:(lia)).
  pose proof (Z.mod_pos_bound (v / 16777216) 256 ltac:(lia)).
  apply Z.mod_unique with (q := v / 4294967296); lia.
Qed.

Lemma wrap32_range z : 0 <= wrap32 z < 2 ^ 32.
Proof. unfold wrap32. apply Z.mod_pos_bound. lia. Qed.

Lemma wrap32_idem z : wrap32 (wrap32 z) = wrap32 z.
Proof. unfold wrap32. apply Z.mod_mod. lia. Qed.

(** [~seed] flips each of the 32 bits of the seed and is a 32-bit word. *)
Lemma not32_bits seed i :
  0 <= i < 32 -> Z.testbit (not32 seed) i = negb (Z.testbit seed i).
Proof.
  intros Hi. unfold not32, wrap32.
  rewrite Z.lxor_spec, Z.mod_pow2_bits_low, Z.ones_spec_low by lia.
  destruct (Z.testbit seed i); reflexivity.
Qed.

Lemma not32_value seed : not32 seed = 2 ^ 32 - 1 - wrap32 seed.
Proof.
  unfold not32. pose proof (wrap32_range seed) as R.
  rewrite <- Z.add_cancel_r with (p := wrap32 seed).
  replace (2 ^ 32 - 1 - wrap32 seed + wrap32 seed) with (Z.ones 32) by (rewrite Z.ones_equiv; lia).
  rewrite Z.add_nocarry_lxor.
  - rewrite Z.lxor_assoc, (Z.lxor_comm (Z.ones 32)), <- Z.lxor_assoc, Z.lxor_nilpotent.
    apply Z.lxor_0_l.
  - apply Z.bits_inj'. intros i Hi. rewrite Z.land_spec, Z.lxor_spec, Z.bits_0.
    destruct (Z.lt_ge_cases i 32).
    + rewrite Z.ones_spec_low by lia. destruct (Z.testbit (wrap32 seed) i); reflexivity.
    + rewrite Z.ones_spec_high by lia. unfold wrap32.
      rewrite Z.mod_pow2_bits_high by lia. reflexivity.
Qed.

(** The alignment test of the dispatcher is divisibility by 4096. *)
Lemma align_4k_test p :
  (Z.land (wrap64 p) (ALIGN_4K - 1) =? 0) = (p mod 4096 =? 0).
Proof.
  unfold wrap64, ALIGN_4K. change (0x1000 - 1) with (Z.ones 12).
  rewrite Z.land_ones by lia. change (2 ^ 12) with 4096.
  rewrite Z.mod_mod_divide; [reflexivity|].
  exists 4503599627370496. reflexivity.
Qed.

(** The software engine recovers the task from its private context. *)
Lemma accel_req_of_offload_ctx accel_req :
  0 <= accel_req < 2 ^ 64 -> accel_req_of (offload_ctx accel_req) = accel_req.
Proof.
  intros R. unfold accel_req_of, offload_ctx, wrap64.
  rewrite Zminus_mod_idemp_l.
  replace (accel_req + offload_ctx_offset - offload_ctx_offset) with accel_req by lia.
  apply Z.mod_small. lia.
Qed.

Lemma not32_range seed : 0 <= not32 seed < 2 ^ 32.
Proof. rewrite not32_value. pose proof (wrap32_range seed). lia. Qed.

(** ** The monad *)

Ltac run := unfold bind, modify, gets, ret, crash, emit, c_assert in *; simpl in *.

Lemma bind_ok {A B} (c : M A) (k : A -> M B) w a w1 :
  c w = Ok a w1 -> (x <- c ;; k x) w = k a w1.
Proof. intros H. unfold bind. rewrite H. reflexivity. Qed.

Lemma bind_ret_value {A} (c : M A) (v r : Z) w w' :
  (c ;; ret v) w = Ok r w' -> r = v.
Proof. unfold bind, ret. destruct (c w); congruence. Qed.

Lemma done_emits ref status w f :
  task_cb w !! ref = Some f ->
  _accel_engine_done ref status w
  = Ok tt (set_trace (trace w ++ [EvCompletion f ref status]) w).
Proof. intros H. unfold _accel_engine_done. run. rewrite H. reflexivity. Qed.

(** ** The software engine *)

(** Fill: the destination holds the fill byte when the callback runs. *)
Lemma sw_fill_sets_bytes cb_arg c dst v nbytes (cb : completion_fn) w :
  let w1 := set_mem (memset (mem w) dst v nbytes) w in
  sw_accel_submit_fill cb_arg c dst v nbytes cb w = (cb (accel_req_of cb_arg) 0 ;; ret 0) w1
  /\ (forall i, 0 <= i < nbytes -> mem w1 (dst + i) = v).
Proof.
  split; [reflexivity|]. intros i Hi. simpl. unfold memset.
  apply memset_loop_fills. lia.
Qed.

(** C7. Copy: for a destination that does not overlap the source, the
    software engine hands to the completion callback a memory in which the
    first [nbytes] bytes of the destination are the first [nbytes] bytes
    the source had, the source bytes are as before, and so is every byte
    outside the destination; the status is 0. *)
Theorem sw_copy_moves_bytes cb_arg c dst src nbytes (cb : completion_fn) w :
  disjoint dst src nbytes ->
  let w1 := set_mem (memcpy (mem w) dst src nbytes) w in
  sw_accel_submit_copy cb_arg c dst src nbytes cb w
  = (cb (accel_req_of cb_arg) 0 ;; ret 0) w1
  /\ (forall i, 0 <= i < nbytes -> mem w1 (dst + i) = mem w (src + i))
  /\ (forall i, 0 <= i < nbytes -> mem w1 (src + i) = mem w (src + i))
  /\ (forall a, a < dst \/ dst + nbytes <= a -> mem w1 a = mem w a).
Proof.
  intros D w1. split; [reflexivity|]. subst w1. simpl. repeat split.
  - intros i Hi. apply memcpy_copies; assumption.
  - intros i Hi. apply memcpy_source_kept; assumption.
  - intros a Ha. apply memcpy_frame; assumption.
Qed.

(** C5. Compare: the software engine completes with the result of the
    byte-wise comparison as status and hands the state to the callback as
    it found it. The sign of the status is the three-way comparison of
    the two byte strings, the status is 0 exactly when the regions are
    equal, a region compared with itself gives 0, and two regions that
    differ in their last byte give a nonzero status. *)
Theorem sw_compare_status cb_arg c src1 src2 nbytes (cb : completion_fn) w :
  let status := memcmp (mem w) src1 src2 nbytes in
  sw_accel_submit_compare cb_arg c src1 src2 nbytes cb w
  = (cb (accel_req_of cb_arg) status ;; ret 0) w
  /\ Z.compare status 0
     = three_way (read_bytes (mem w) src1 (Z.to_nat nbytes))
                 (read_bytes (mem w) src2 (Z.to_nat nbytes))
  /\ (status = 0 <-> forall i, 0 <= i < nbytes -> mem w (src1 + i) = mem w (src2 + i))
  /\ memcmp (mem w) src1 src1 nbytes = 0
  /\ (0 < nbytes ->
      (forall i, 0 <= i < nbytes - 1 -> mem w (src1 + i) = mem w (src2 + i)) ->
      mem w (src1 + (nbytes - 1)) <> mem w (src2 + (nbytes - 1)) ->
      status <> 0).
Proof.
  intros status. split; [reflexivity|]. subst status. repeat split.
  - apply memcmp_loop_three_way.
  - apply memcmp_zero.
  - apply memcmp_zero.
  - apply memcmp_same.
  - intros Hn _ Hlast Hz. apply Hlast. apply memcmp_zero with (n := nbytes); [assumption|lia].
Qed.

(** C6. Checksum: the software engine stores at the output location the
    32-bit value of [spdk_crc32c_update] on the first [nbytes] source
    bytes with the complement of the seed as initial value, and completes
    with status 0. The value is a function of the source bytes, the seed
    and the length: another call that finds the same bytes stores the same
    value. *)
Theorem sw_crc32c_writes_checksum cb_arg c dst src seed nbytes (cb : completion_fn) w :
  let crc := wrap32 (spdk_crc32c_update (read_bytes (mem w) src (Z.to_nat nbytes))
                                         (not32 seed)) in
  let w1 := set_mem (store_u32 (mem w) dst crc) w in
  sw_accel_submit_crc32c cb_arg c dst src seed nbytes cb w
  = (cb (accel_req_of cb_arg) 0 ;; ret 0) w1
  /\ load_u32 (mem w1) dst = crc
  /\ (forall i, 0 <= i < 32 -> Z.testbit (not32 seed) i = negb (Z.testbit seed i))
  /\ 0 <= not32 seed < 2 ^ 32
  /\ (forall cb_arg' c' dst' src' (cb' : completion_fn) w',
        read_bytes (mem w') src' (Z.to_nat nbytes)
        = read_bytes (mem w) src (Z.to_nat nbytes) ->
        exists w1',
          sw_accel_submit_crc32c cb_arg' c' dst' src' seed nbytes cb' w'
          = (cb' (accel_req_of cb_arg') 0 ;; ret 0) w1'
          /\ load_u32 (mem w1') dst' = crc).
Proof.
  intros crc w1. split; [reflexivity|]. subst w1 crc. simpl. repeat split.
  - rewrite load_store_u32. apply wrap32_idem.
  - intros i Hi. apply not32_bits. assumption.
  - apply not32_range.
  - apply not32_range.
  - intros cb_arg' c' dst' src' cb' w' E. eexists. split; [reflexivity|].
    simpl. rewrite load_store_u32, E. apply wrap32_idem.
Qed.

(** C10. Every submit function of the software engine returns 0 whenever
    it returns, whatever status it gave to the callback; and it returns
    when the callback does. With the trampoline of the dispatcher as
    callback and a task that holds a caller callback [f], compare returns
    0 and the comparison result is the status of the one call of [f]. *)
Theorem sw_submit_returns_zero cb_arg c (cb : completion_fn) w :
  (forall dst src n r w',
      sw_accel_submit_copy cb_arg c dst src n cb w = Ok r w' -> r = 0)
  /\ (forall dst1 dst2 src n r w',
      sw_accel_submit_dualcast cb_arg c dst1 dst2 src n cb w = Ok r w' -> r = 0)
  /\ (forall src1 src2 n r w',
      sw_accel_submit_compare cb_arg c src1 src2 n cb w = Ok r w' -> r = 0)
  /\ (forall dst v n r w',
      sw_accel_submit_fill cb_arg c dst v n cb w = Ok r w' -> r = 0)
  /\ (forall dst src seed n r w',
      sw_accel_submit_crc32c cb_arg c dst src seed n cb w = Ok r w' -> r = 0)
  /\ (forall src1 src2 n w2,
      cb (accel_req_of cb_arg) (memcmp (mem w) src1 src2 n) w = Ok tt w2 ->
      sw_accel_submit_compare cb_arg c src1 src2 n cb w = Ok 0 w2)
  /\ (forall f, task_cb w !! accel_req_of cb_arg = Some f ->
      (forall dst src n,
          result_of (sw_accel_submit_copy cb_arg c dst src n _accel_engine_done w) = Some 0)
      /\ (forall dst1 dst2 src n,
          result_of (sw_accel_submit_dualcast cb_arg c dst1 dst2 src n _accel_engine_done w)
          = Some 0)
      /\ (forall dst v n,
          result_of (sw_accel_submit_fill cb_arg c dst v n _accel_engine_done w) = Some 0)
      /\ (forall dst src seed n,
          result_of (sw_accel_submit_crc32c cb_arg c dst src seed n _accel_engine_done w)
          = Some 0)
      /\ (forall src1 src2 n,
          sw_accel_submit_compare cb_arg c src1 src2 n _accel_engine_done w
          = Ok 0 (set_trace (trace w ++ [EvCompletion f (accel_req_of cb_arg)
                                           (memcmp (mem w) src1 src2 n)]) w))).
Proof.
  repeat split.
  - intros dst src n r w'. unfold sw_accel_submit_copy.
    unfold bind at 1. unfold modify at 1. apply bind_ret_value.
  - intros dst1 dst2 src n r w'. unfold sw_accel_submit_dualcast.
    unfold bind at 1. unfold modify at 1. unfold bind at 1. unfold modify at 1.
    apply bind_ret_value.
  - intros src1 src2 n r w'. unfold sw_accel_submit_compare.
    unfold bind at 1. unfold gets at 1. apply bind_ret_value.
  - intros dst v n r w'. unfold sw_accel_submit_fill.
    unfold bind at 1. unfold modify at 1. apply bind_ret_value.
  - intros dst src seed n r w'. unfold sw_accel_submit_crc32c.
    unfold bind at 1. unfold modify at 1. apply bind_ret_value.
  - intros src1 src2 n w2 H. unfold sw_accel_submit_compare.
    unfold bind at 1. unfold gets at 1. unfold bind. rewrite H. reflexivity.
  - intros dst src n. unfold sw_accel_submit_copy, _accel_engine_done. run.
    rewrite H. reflexivity.
  - intros dst1 dst2 src n. unfold sw_accel_submit_dualcast, _accel_engine_done. run.
    rewrite H. reflexivity.
  - intros dst v n. unfold sw_accel_submit_fill, _accel_engine_done. run.
    rewrite H. reflexivity.
  - intros dst src seed n. unfold sw_accel_submit_crc32c, _accel_engine_done. run.
    rewrite H. reflexivity.
  - intros src1 src2 n. unfold sw_accel_submit_compare, _accel_engine_done. run.
    rewrite H. reflexivity.
Qed.

(** ** The dispatcher *)

Lemma load_accel_ch_ok w c ctx :
  channel_ctx w c ctx -> load_accel_ch (spdk_io_channel_get_ctx c) w = Ok ctx w.
Proof.
  intros (t & r & -> & Hl & <-). unfold load_accel_ch, spdk_io_channel_get_ctx. run.
  rewrite Hl. reflexivity.
Qed.

Lemma channel_ctx_set_task_cb w c ctx v :
  channel_ctx w c ctx -> channel_ctx (set_task_cb v w) c ctx.
Proof. intros H. exact H. Qed.

(** What every submit function does after its argument checks: it stores
    the callback, reads the channel and calls the engine with the
    trampoline. *)
Lemma dispatch_to_engine accel_req c ctx cb
    (op : accel_io_channel -> spdk_accel_engine -> completion_fn -> M Z) w :
  channel_ctx w c ctx ->
  (accel_req_set_cb accel_req cb ;;
   ctx' <- load_accel_ch (spdk_io_channel_get_ctx c) ;;
   e <- bound_engine ctx' ;;
   op ctx' e _accel_engine_done) w
  = (e <- bound_engine ctx ;; op ctx e _accel_engine_done)
      (set_task_cb (<[accel_req := cb]> (task_cb w)) w).
Proof.
  intros H. unfold accel_req_set_cb. unfold bind at 1. unfold modify at 1.
  unfold bind at 1.
  rewrite (load_accel_ch_ok _ c ctx) by apply channel_ctx_set_task_cb, H.
  reflexivity.
Qed.

Lemma aligned_passes dst1 dst2 :
  dst1 mod 4096 = 0 -> dst2 mod 4096 = 0 ->
  negb (Z.land (wrap64 dst1) (ALIGN_4K - 1) =? 0)
  || negb (Z.land (wrap64 dst2) (ALIGN_4K - 1) =? 0) = false.
Proof.
  intros H1 H2. rewrite !align_4k_test, H1, H2. reflexivity.
Qed.

Lemma misaligned_fails dst1 dst2 :
  dst1 mod 4096 <> 0 \/ dst2 mod 4096 <> 0 ->
  negb (Z.land (wrap64 dst1) (ALIGN_4K - 1) =? 0)
  || negb (Z.land (wrap64 dst2) (ALIGN_4K - 1) =? 0) = true.
Proof.
  intros H. rewrite !align_4k_test.
  destruct (Z.eqb_spec (dst1 mod 4096) 0), (Z.eqb_spec (dst2 mod 4096) 0);
    simpl; try reflexivity. lia.
Qed.

(** The five submit functions on a channel of the software engine. *)
Section SoftwareChannel.

Variables (accel_req : Z) (c : chan_ptr) (c0 : option chan_ptr) (cb : Z) (w : world).
Hypothesis bound : channel_ctx w c {| engine := Some sw_accel_engine_ref; ch := c0 |}.
Hypothesis in_range : 0 <= accel_req < 2 ^ 64.

Let w1 := set_task_cb (<[accel_req := cb]> (task_cb w)) w.
Let sw_ctx := {| engine := Some sw_accel_engine_ref; ch := c0 |}.

Ltac sw_dispatch H :=
  rewrite H by exact bound; unfold bound_engine; simpl;
  unfold bind at 1; unfold ret at 1; simpl;
  unfold sw_accel_submit_copy, sw_accel_submit_dualcast, sw_accel_submit_compare,
    sw_accel_submit_fill, sw_accel_submit_crc32c;
  rewrite accel_req_of_offload_ctx by exact in_range;
  unfold _accel_engine_done; run; rewrite lookup_insert_eq; reflexivity.

Lemma sw_dispatch_copy dst src n :
  spdk_accel_submit_copy accel_req c dst src n cb w
  = Ok 0 (set_trace (trace w ++ [EvCompletion cb accel_req 0])
            (set_mem (memcpy (mem w) dst src n) w1)).
Proof.
  unfold spdk_accel_submit_copy.
  sw_dispatch (dispatch_to_engine accel_req c sw_ctx cb
                 (fun x e k => copy e (offload_ctx accel_req) (ch x) dst src n k) w).
Qed.

Lemma sw_dispatch_dualcast dst1 dst2 src n :
  dst1 mod 4096 = 0 -> dst2 mod 4096 = 0 ->
  spdk_accel_submit_dualcast accel_req c dst1 dst2 src n cb w
  = Ok 0 (set_trace (trace w ++ [EvCompletion cb accel_req 0])
            (set_mem (memcpy (memcpy (mem w) dst1 src n) dst2 src n) w1)).
Proof.
  intros A1 A2. unfold spdk_accel_submit_dualcast. rewrite aligned_passes by assumption.
  sw_dispatch (dispatch_to_engine accel_req c sw_ctx cb
                 (fun x e k => dualcast e (offload_ctx accel_req) (ch x) dst1 dst2 src n k) w).
Qed.

Lemma sw_dispatch_compare src1 src2 n :
  spdk_accel_submit_compare accel_req c src1 src2 n cb w
  = Ok 0 (set_trace (trace w ++ [EvCompletion cb accel_req (memcmp (mem w) src1 src2 n)]) w1).
Proof.
  unfold spdk_accel_submit_compare.
  sw_dispatch (dispatch_to_engine accel_req c sw_ctx cb
                 (fun x e k => compare e (offload_ctx accel_req) (ch x) src1 src2 n k) w).
Qed.

Lemma sw_dispatch_fill dst v n :
  spdk_accel_submit_fill accel_req c dst v n cb w
  = Ok 0 (set_trace (trace w ++ [EvCompletion cb accel_req 0])
            (set_mem (memset (mem w) dst v n) w1)).
Proof.
  unfold spdk_accel_submit_fill.
  sw_dispatch (dispatch_to_engine accel_req c sw_ctx cb
                 (fun x e k => fill e (offload_ctx accel_req) (ch x) dst v n k) w).
Qed.

Lemma sw_dispatch_crc32c dst src seed n :
  spdk_accel_submit_crc32c accel_req c dst src seed n cb w
  = Ok 0 (set_trace (trace w ++ [EvCompletion cb accel_req 0])
            (set_mem (store_u32 (mem w) dst
                        (wrap32 (spdk_crc32c_update (read_bytes (mem w) src (Z.to_nat n))
                                                    (not32 seed)))) w1)).
Proof.
  unfold spdk_accel_submit_crc32c.
  sw_dispatch (dispatch_to_engine accel_req c sw_ctx cb
                 (fun x e k => crc32c e (offload_ctx accel_req) (ch x) dst src seed n k) w).
Qed.

End SoftwareChannel.

(** C1. On a channel that is bound to an engine, each of the five submit
    functions (dual-cast once its destinations passed the alignment
    check) stores the caller's callback in the task and calls the
    function of the bound engine with the trampoline as callback. In any
    state in which a task holds a callback, one call of the trampoline
    with that task and a status is exactly one call of that callback,
    with the same task and the same status, and changes nothing else. *)
Theorem dispatcher_trampoline accel_req c e c0 cb w :
  channel_ctx w c {| engine := Some e; ch := c0 |} ->
  let w1 := set_task_cb (<[accel_req := cb]> (task_cb w)) w in
  task_cb w1 !! accel_req = Some cb
  /\ (forall dst src n,
        spdk_accel_submit_copy accel_req c dst src n cb w
        = copy (engine_at e) (offload_ctx accel_req) c0 dst src n _accel_engine_done w1)
  /\ (forall dst1 dst2 src n,
        dst1 mod 4096 = 0 -> dst2 mod 4096 = 0 ->
        spdk_accel_submit_dualcast accel_req c dst1 dst2 src n cb w
        = dualcast (engine_at e) (offload_ctx accel_req) c0 dst1 dst2 src n
            _accel_engine_done w1)
  /\ (forall src1 src2 n,
        spdk_accel_submit_compare accel_req c src1 src2 n cb w
        = compare (engine_at e) (offload_ctx accel_req) c0 src1 src2 n
            _accel_engine_done w1)
  /\ (forall dst v n,
        spdk_accel_submit_fill accel_req c dst v n cb w
        = fill (engine_at e) (offload_ctx accel_req) c0 dst v n _accel_engine_done w1)
  /\ (forall dst src seed n,
        spdk_accel_submit_crc32c accel_req c dst src seed n cb w
        = crc32c (engine_at e) (offload_ctx accel_req) c0 dst src seed n
            _accel_engine_done w1)
  /\ (forall ref status w' f,
        task_cb w' !! ref = Some f ->
        _accel_engine_done ref status w'
        = Ok tt (set_trace (trace w' ++ [EvCompletion f ref status]) w'))
  /\ (e = sw_accel_engine_ref -> 0 <= accel_req < 2 ^ 64 ->
      forall dst dst2 src v seed n,
        (exists w', spdk_accel_submit_copy accel_req c dst src n cb w = Ok 0 w'
                    /\ trace w' = trace w ++ [EvCompletion cb accel_req 0])
        /\ (dst mod 4096 = 0 -> dst2 mod 4096 = 0 ->
            exists w', spdk_accel_submit_dualcast accel_req c dst dst2 src n cb w = Ok 0 w'
                       /\ trace w' = trace w ++ [EvCompletion cb accel_req 0])
        /\ (exists w', spdk_accel_submit_compare accel_req c dst src n cb w = Ok 0 w'
                       /\ trace w' = trace w ++ [EvCompletion cb accel_req
                                                   (memcmp (mem w) dst src n)])
        /\ (exists w', spdk_accel_submit_fill accel_req c dst v n cb w = Ok 0 w'
                       /\ trace w' = trace w ++ [EvCompletion cb accel_req 0])
        /\ (exists w', spdk_accel_submit_crc32c accel_req c dst src seed n cb w = Ok 0 w'
                       /\ trace w' = trace w ++ [EvCompletion cb accel_req 0])).
Proof.
  intros H w1. split; [apply lookup_insert_eq|].
  do 6 (try split);
    [| | | | | | intros -> R dst dst2 src v seed n; repeat split;
                 [rewrite (sw_dispatch_copy _ _ _ _ _ H R)
                 |intros A1 A2; rewrite (sw_dispatch_dualcast _ _ _ _ _ H R _ _ _ _ A1 A2)
                 |rewrite (sw_dispatch_compare _ _ _ _ _ H R)
                 |rewrite (sw_dispatch_fill _ _ _ _ _ H R)
                 |rewrite (sw_dispatch_crc32c _ _ _ _ _ H R)];
                 eexists; (split; [reflexivity|reflexivity])].
  - intros dst src n. unfold spdk_accel_submit_copy.
    rewrite (dispatch_to_engine _ _ _ _
               (fun x e k => copy e (offload_ctx accel_req) (ch x) dst src n k) _ H).
    reflexivity.
  - intros dst1 dst2 src n A1 A2. unfold spdk_accel_submit_dualcast.
    rewrite aligned_passes by assumption.
    rewrite (dispatch_to_engine _ _ _ _
               (fun x e k => dualcast e (offload_ctx accel_req) (ch x) dst1 dst2 src n k) _ H).
    reflexivity.
  - intros src1 src2 n. unfold spdk_accel_submit_compare.
    rewrite (dispatch_to_engine _ _ _ _
               (fun x e k => compare e (offload_ctx accel_req) (ch x) src1 src2 n k) _ H).
    reflexivity.
  - intros dst v n. unfold spdk_accel_submit_fill.
    rewrite (dispatch_to_engine _ _ _ _
               (fun x e k => fill e (offload_ctx accel_req) (ch x) dst v n k) _ H).
    reflexivity.
  - intros dst src seed n. unfold spdk_accel_submit_crc32c.
    rewrite (dispatch_to_engine _ _ _ _
               (fun x e k => crc32c e (offload_ctx accel_req) (ch x) dst src seed n k) _ H).
    reflexivity.
  - intros ref status w' f Hf. apply done_emits, Hf.
Qed.

(** C4. Dual-cast. With both destinations on a 4096-byte boundary, on a
    channel of the software engine and for three regions that do not
    overlap, the call returns 0, the first [nbytes] bytes of both
    destinations are those the source had, and the caller's callback was
    called once with status 0. With a destination off the boundary the
    call returns [-EINVAL] at once, on any channel: the state is as
    before but for the error message, so no byte moved, no callback was
    stored and none was called. *)
Theorem dualcast_alignment accel_req c dst1 dst2 src nbytes cb w :
  (dst1 mod 4096 = 0 -> dst2 mod 4096 = 0 ->
   forall c0,
     channel_ctx w c {| engine := Some sw_accel_engine_ref; ch := c0 |} ->
     0 <= accel_req < 2 ^ 64 ->
     disjoint dst1 src nbytes -> disjoint dst2 src nbytes -> disjoint dst1 dst2 nbytes ->
     exists w',
       spdk_accel_submit_dualcast accel_req c dst1 dst2 src nbytes cb w = Ok 0 w'
       /\ (forall i, 0 <= i < nbytes -> mem w' (dst1 + i) = mem w (src + i))
       /\ (forall i, 0 <= i < nbytes -> mem w' (dst2 + i) = mem w (src + i))
       /\ trace w' = trace w ++ [EvCompletion cb accel_req 0])
  /\ (dst1 mod 4096 <> 0 \/ dst2 mod 4096 <> 0 ->
      spdk_accel_submit_dualcast accel_req c dst1 dst2 src nbytes cb w
      = Ok (- EINVAL)
           (set_trace (trace w ++ [EvErrLog "Dualcast requires 4K alignment on dst addresses"])
                      w)).
Proof.
  split.
  - intros A1 A2 c0 H R D1 D2 D12.
    rewrite (sw_dispatch_dualcast _ _ _ _ _ H R _ _ _ _ A1 A2).
    eexists. split; [reflexivity|]. simpl. repeat split.
    + intros i Hi. rewrite memcpy_frame by (unfold disjoint in D12; lia).
      apply memcpy_copies; assumption.
    + intros i Hi. rewrite memcpy_copies by assumption.
      apply memcpy_source_kept; assumption.
  - intros Hmis. unfold spdk_accel_submit_dualcast.
    rewrite misaligned_fails by assumption. reflexivity.
Qed.

(** ** Registration *)

Lemma world_eta w : set_trace (trace w) w = w.
Proof. destruct w. reflexivity. Qed.

Lemma register_accepted e w :
  g_hw_accel_engine w = None -> spdk_accel_hw_engine_register e w = Ok tt (set_hw e w).
Proof. intros H. unfold spdk_accel_hw_engine_register. run. rewrite H. reflexivity. Qed.

Lemma register_rejected e e0 w :
  g_hw_accel_engine w = Some e0 ->
  spdk_accel_hw_engine_register e w = Ok tt (set_trace (trace w ++ [hw_notice]) w).
Proof. intros H. unfold spdk_accel_hw_engine_register. run. rewrite H. reflexivity. Qed.

Lemma register_all_rejected calls : forall e0 w,
  g_hw_accel_engine w = Some e0 ->
  register_all calls w
  = Ok tt (set_trace (trace w ++ repeat hw_notice (length calls)) w).
Proof.
  induction calls as [|e rest IH]; intros e0 w H; simpl.
  - rewrite app_nil_r, world_eta. reflexivity.
  - unfold bind. rewrite (register_rejected _ e0) by assumption.
    rewrite (IH e0) by exact H. simpl. rewrite <- app_assoc. reflexivity.
Qed.

(** C8. In a state with an empty hardware slot, a sequence of hardware
    registrations runs to its end without a fault, leaves the first
    descriptor in the slot and changes nothing else but the log, which
    gets one notice per later call. In a state with an occupied slot
    every registration is such a logged no-op. *)
Theorem hw_register_first_wins first later w :
  (g_hw_accel_engine w = None ->
   register_all (first :: later) w
   = Ok tt (set_trace (trace w ++ repeat hw_notice (length later))
                      (set_hw (Some first) w)))
  /\ (forall e0 calls,
        g_hw_accel_engine w = Some e0 ->
        register_all calls w
        = Ok tt (set_trace (trace w ++ repeat hw_notice (length calls)) w)).
Proof.
  split.
  - intros H. simpl. unfold bind. rewrite register_accepted by assumption.
    rewrite (register_all_rejected later first) by reflexivity. reflexivity.
  - intros e0 calls H. apply (register_all_rejected calls e0), H.
Qed.

Lemma module_list_add_run m w :
  spdk_accel_module_list_add m w
  = Ok tt (set_max_size
             (match get_ctx_size m with
              | Some sz => Z.max (g_max_accel_module_size w) sz
              | None => g_max_accel_module_size w
              end)
             (set_module_list (spdk_accel_module_list w ++ [m]) w)).
Proof.
  unfold spdk_accel_module_list_add. run. destruct (get_ctx_size m) as [sz|]; simpl.
  - destruct (Z.gtb_spec sz (g_max_accel_module_size w)); simpl.
    + rewrite Z.max_r by lia. reflexivity.
    + rewrite Z.max_l by lia. destruct w; reflexivity.
  - destruct w; reflexivity.
Qed.

Lemma max_ctx_size_nonneg l : 0 <= max_ctx_size l.
Proof. induction l as [|m l IH]; simpl; lia. Qed.

Lemma register_modules_run ms : forall w,
  0 <= g_max_accel_module_size w ->
  exists w',
    register_modules ms w = Ok tt w'
    /\ spdk_accel_module_list w' = spdk_accel_module_list w ++ ms
    /\ g_max_accel_module_size w' = Z.max (g_max_accel_module_size w) (max_ctx_size ms).
Proof.
  induction ms as [|m ms IH]; intros w H; simpl.
  - exists w. rewrite app_nil_r. repeat split. lia.
  - unfold bind. rewrite module_list_add_run.
    edestruct IH as (w' & E & L & S); [|rewrite E; exists w'; split; [reflexivity|]].
    + simpl. destruct (get_ctx_size m); lia.
    + rewrite L, S. simpl. rewrite <- app_assoc. split; [reflexivity|].
      pose proof (max_ctx_size_nonneg ms). destruct (get_ctx_size m); simpl; lia.
Qed.

(** C9, as the code has it. After any sequence of module registrations
    from the initial state, [spdk_accel_task_size] is the largest context
    size that a registered module reports, and 0 when none reports one.
    A further registration never decreases the cached size: it leaves it
    as it is when the module reports no size or one that is not larger,
    and raises it to the reported size when that is larger. *)
Theorem task_size_is_max ms m w :
  result_of ((register_modules ms ;; spdk_accel_task_size) initial_world)
  = Some (max_ctx_size ms)
  /\ (exists w',
        spdk_accel_module_list_add m w = Ok tt w'
        /\ spdk_accel_module_list w' = spdk_accel_module_list w ++ [m]
        /\ g_max_accel_module_size w <= g_max_accel_module_size w'
        /\ g_max_accel_module_size w'
           = match get_ctx_size m with
             | Some sz => Z.max (g_max_accel_module_size w) sz
             | None => g_max_accel_module_size w
             end)
  /\ (g_max_accel_module_size w = max_ctx_size (spdk_accel_module_list w) ->
      exists w',
        spdk_accel_module_list_add m w = Ok tt w'
        /\ g_max_accel_module_size w' = max_ctx_size (spdk_accel_module_list w')).
Proof.
  repeat split.
  - destruct (register_modules_run ms initial_world) as (w' & E & L & S); [simpl; lia|].
    unfold bind. rewrite E. unfold spdk_accel_task_size, gets. simpl.
    rewrite S. simpl. pose proof (max_ctx_size_nonneg ms). f_equal. lia.
  - rewrite module_list_add_run. eexists. split; [reflexivity|]. simpl.
    repeat split. destruct (get_ctx_size m); lia.
  - intros Inv. rewrite module_list_add_run. eexists. split; [reflexivity|]. simpl.
    rewrite Inv. clear Inv. induction (spdk_accel_module_list w) as [|m0 l IH]; simpl.
    + destruct (get_ctx_size m); simpl; lia.
    + destruct (get_ctx_size m); simpl in *; lia.
Qed.

(** ** Shutdown *)

Lemma module_finish_at_run cb_fn cb_arg rest : forall i w,
  g_fini_cb_fn w = Some cb_fn -> g_fini_cb_arg w = cb_arg ->
  drop i (spdk_accel_module_list w) = rest ->
  exists w', module_finish_at rest i w = Ok tt w'
             /\ advanced cb_fn cb_arg (fini_hooks rest) w w'.
Proof.
  induction rest as [|m rest IH]; intros i w Hcb Harg Hdrop.
  - simpl. unfold accel_engine_module_finish_cb. run. rewrite Hcb, Harg.
    eexists. split; [reflexivity|]. split; [reflexivity|]. simpl. split; reflexivity.
  - assert (Hnext : drop (S i) (spdk_accel_module_list w) = rest).
    { replace (S i) with (i + 1)%nat by lia.
      rewrite <- drop_drop, Hdrop. reflexivity. }
    simpl module_finish_at. unfold fini_hooks. simpl omap.
    destruct (module_fini m) as [h|] eqn:Hm.
    + unfold spdk_thread_send_msg. run. eexists. split; [reflexivity|].
      split; [reflexivity|]. simpl. repeat split; try assumption.
      simpl. rewrite Hnext. reflexivity.
    + unfold bind at 1. unfold modify at 1.
      destruct (IH (S i) (set_cursor (Some i) w)) as (w' & E & A); try assumption.
      exists w'. split; [exact E|]. exact A.
Qed.

Lemma module_finish_run cb_fn cb_arg hs w :
  finishing cb_fn cb_arg hs w ->
  exists w', spdk_accel_engine_module_finish w = Ok tt w' /\ advanced cb_fn cb_arg hs w w'.
Proof.
  intros [Hcb Harg Hrest]. unfold spdk_accel_engine_module_finish.
  unfold bind at 1. unfold gets at 1. unfold bind at 1. unfold gets at 1.
  rewrite <- Hrest. apply module_finish_at_run; try assumption. reflexivity.
Qed.

Lemma run_fini_hook_run cb_fn cb_arg hs fn w :
  finishing cb_fn cb_arg hs w ->
  exists w', run_fini_hook fn w = Ok tt w' /\ advanced cb_fn cb_arg hs w w'.
Proof.
  intros F. destruct fn as [|id]; simpl.
  - unfold sw_accel_engine_fini, spdk_io_device_unregister, accel_sw_unregister.
    unfold bind at 1. unfold modify at 1. unfold bind at 1. unfold modify at 1.
    match goal with |- context [spdk_accel_engine_module_finish ?w0] =>
      destruct (module_finish_run cb_fn cb_arg hs w0) as (w' & E & A) end.
    + destruct F. split; assumption.
    + exists w'. split; [exact E|]. exact A.
  - apply module_finish_run, F.
Qed.

Lemma thread_poll_idle k : forall w, msgq w = [] -> thread_poll_n k w = Ok tt w.
Proof.
  induction k as [|k IH]; intros w H; simpl; [reflexivity|].
  unfold bind at 1. unfold thread_poll. unfold bind at 1. unfold gets at 1.
  rewrite H. unfold ret at 1. apply IH, H.
Qed.

(** The message loop during a shutdown that waits for the hook [h]. *)
Lemma thread_poll_finishing cb_fn cb_arg hs : forall h k w,
  finishing cb_fn cb_arg hs w -> msgq w = [h] ->
  exists w',
    thread_poll_n k w = Ok tt w'
    /\ trace w' = trace w ++
                  match k with
                  | O => []
                  | S k' => EvMsgRun h :: fini_events cb_fn cb_arg (cur_thread w) hs k'
                  end
    /\ msgq w' = match k with O => [h] | S k' => take 1 (drop k' hs) end.
Proof.
  induction hs as [|h2 hs IH]; intros h k w F Hq.
  - destruct k as [|k].
    + exists w. simpl. rewrite app_nil_r. repeat split; assumption.
    + simpl thread_poll_n. unfold bind at 1. unfold thread_poll.
      unfold bind at 1. unfold gets at 1. rewrite Hq.
      unfold bind at 1. unfold modify at 1. unfold bind at 1. unfold emit at 1.
      unfold modify at 1.
      match goal with |- context [run_fini_hook h ?w0] =>
        destruct (run_fini_hook_run cb_fn cb_arg [] h w0) as (w1 & E & Ht & Htr & Hm) end.
      { destruct F. split; assumption. }
      rewrite E. rewrite thread_poll_idle by (rewrite Hm; reflexivity).
      exists w1. split; [reflexivity|]. rewrite Htr, Hm. simpl.
      rewrite <- app_assoc. split; [reflexivity|]. destruct k; reflexivity.
  - destruct k as [|k].
    + exists w. simpl. rewrite app_nil_r. repeat split; assumption.
    + simpl thread_poll_n. unfold bind at 1. unfold thread_poll.
      unfold bind at 1. unfold gets at 1. rewrite Hq.
      unfold bind at 1. unfold modify at 1. unfold bind at 1. unfold emit at 1.
      unfold modify at 1.
      match goal with |- context [run_fini_hook h ?w0] =>
        destruct (run_fini_hook_run cb_fn cb_arg (h2 :: hs) h w0)
          as (w1 & E & Ht & Htr & Hm & F1) end.
      { destruct F. split; assumption. }
      rewrite E. simpl in Htr, Hm, Ht.
      destruct (IH h2 k w1 F1 Hm) as (w' & E' & Htr' & Hm').
      exists w'. split; [exact E'|]. rewrite Htr', Htr, Hm', Ht. simpl.
      rewrite <- !app_assoc. simpl. split; [|destruct k; reflexivity].
      destruct k; reflexivity.
Qed.

Lemma fini_events_all cb_fn cb_arg t hooks : forall k,
  (length hooks <= k)%nat ->
  fini_events cb_fn cb_arg t hooks k
  = flat_map (hook_events t) hooks ++ [EvFiniCb cb_fn cb_arg].
Proof.
  induction hooks as [|h hs IH]; intros k Hk; simpl; [reflexivity|].
  destruct k as [|k]; simpl in Hk; [lia|]. rewrite IH by lia. reflexivity.
Qed.

Lemma fini_events_waiting cb_fn cb_arg t hooks : forall k h,
  hooks !! k = Some h ->
  fini_events cb_fn cb_arg t hooks k
  = flat_map (hook_events t) (take k hooks) ++ [EvSendMsg t h].
Proof.
  induction hooks as [|h0 hs IH]; intros k h Hk; [discriminate|].
  destruct k as [|k]; simpl in *.
  - congruence.
  - rewrite (IH k h) by assumption. reflexivity.
Qed.

Lemma fini_events_count cb_fn cb_arg t hooks : forall k,
  length (List.filter is_fini_cb (fini_events cb_fn cb_arg t hooks k))
  = if (length hooks <=? k)%nat then 1%nat else 0%nat.
Proof.
  induction hooks as [|h hs IH]; intros k; simpl; [reflexivity|].
  destruct k as [|k]; simpl; [reflexivity|]. apply IH.
Qed.

(** C3. Shutdown. From a state without cursor and without pending
    messages, [spdk_accel_engine_finish] followed by [k] turns of the
    message loop runs without a fault and is seen to do [fini_events]:
    with [k] below the number of hooks, the first [k] hooks were each sent
    and run, in registration order, the next hook has been sent and is the
    one message that waits, and the final callback has not been called;
    from the last hook's turn on, every hook was sent and run, in order,
    and the final callback was called once, as the last event. Modules
    without a hook leave no event. Without modules the final callback is
    the only event. *)
Theorem finalization_is_sequential w cb_fn cb_arg k :
  g_accel_engine_module w = None -> msgq w = [] ->
  let hooks := fini_hooks (spdk_accel_module_list w) in
  let t := cur_thread w in
  exists w',
    (spdk_accel_engine_finish (Some cb_fn) cb_arg ;; thread_poll_n k) w = Ok tt w'
    /\ trace w' = trace w ++ fini_events cb_fn cb_arg t hooks k
    /\ msgq w' = take 1 (drop k hooks)
    /\ (forall h, hooks !! k = Some h ->
          fini_events cb_fn cb_arg t hooks k
          = flat_map (hook_events t) (take k hooks) ++ [EvSendMsg t h])
    /\ ((length hooks <= k)%nat ->
        fini_events cb_fn cb_arg t hooks k
        = flat_map (hook_events t) hooks ++ [EvFiniCb cb_fn cb_arg])
    /\ length (List.filter is_fini_cb (fini_events cb_fn cb_arg t hooks k))
       = (if (length hooks <=? k)%nat then 1%nat else 0%nat)
    /\ (spdk_accel_module_list w = [] -> trace w' = trace w ++ [EvFiniCb cb_fn cb_arg]).
Proof.
  intros Hc Hq hooks t.
  assert (Hrun : exists w',
    (spdk_accel_engine_finish (Some cb_fn) cb_arg ;; thread_poll_n k) w = Ok tt w'
    /\ trace w' = trace w ++ fini_events cb_fn cb_arg t hooks k
    /\ msgq w' = take 1 (drop k hooks)).
  { unfold spdk_accel_engine_finish, spdk_io_device_unregister.
    unfold bind at 1. unfold bind at 1. unfold c_assert.
    rewrite bool_decide_eq_true_2 by discriminate. unfold ret at 1.
    unfold bind at 1. unfold modify at 1. unfold bind at 1. unfold modify at 1.
    match goal with |- context [spdk_accel_engine_module_finish ?w0] =>
      destruct (module_finish_run cb_fn cb_arg hooks w0) as (w1 & E & Ht & A) end.
    { split; simpl; try reflexivity. rewrite Hc. reflexivity. }
    rewrite E. simpl in Ht, A. fold t in A. destruct hooks as [|h hs] eqn:Hh.
    - destruct A as [Htr Hm]. rewrite thread_poll_idle by congruence.
      exists w1. split; [reflexivity|]. split; [exact Htr|].
      rewrite Hm, Hq. destruct k; reflexivity.
    - destruct A as (Htr & Hm & F). rewrite Hq in Hm. simpl in Hm.
      destruct (thread_poll_finishing cb_fn cb_arg hs h k w1 F Hm) as (w' & E' & Htr' & Hm').
      exists w'. split; [exact E'|]. rewrite Htr', Htr, Hm', Ht. fold t.
      rewrite <- app_assoc. split; destruct k; reflexivity. }
  destruct Hrun as (w' & E & Htr & Hm). exists w'.
  split; [exact E|]. split; [exact Htr|]. split; [exact Hm|].
  split; [intros h Hh; apply fini_events_waiting, Hh|].
  split; [apply fini_events_all|]. split; [apply fini_events_count|].
  intros Hnil. rewrite Htr. subst hooks. rewrite Hnil. reflexivity.
Qed.

(** The C function calls itself; [module_finish_at] is that recursion. *)
Lemma module_finish_unfold w :
  spdk_accel_engine_module_finish w
  = (let pos := next_position (g_accel_engine_module w) in
     match spdk_accel_module_list w !! pos with
     | None => (modify (set_cursor None) ;; accel_engine_module_finish_cb) w
     | Some m =>
         (modify (set_cursor (Some pos)) ;;
          match module_fini m with
          | Some fn => spdk_thread_send_msg fn
          | None => spdk_accel_engine_module_finish
          end) w
     end).
Proof.
  unfold spdk_accel_engine_module_finish at 1.
  unfold bind at 1. unfold gets at 1. unfold bind at 1. unfold gets at 1. simpl.
  set (pos := next_position (g_accel_engine_module w)).
  assert (Hhd : spdk_accel_module_list w !! pos
                = drop pos (spdk_accel_module_list w) !! 0%nat)
    by (rewrite lookup_drop, Nat.add_0_r; reflexivity).
  rewrite Hhd. destruct (drop pos (spdk_accel_module_list w)) as [|m rest] eqn:Hd; simpl.
  - reflexivity.
  - destruct (module_fini m); [reflexivity|].
    unfold spdk_accel_engine_module_finish, bind, gets, modify. simpl.
    replace (drop (S pos) (spdk_accel_module_list w)) with rest; [reflexivity|].
    replace (S pos) with (pos + 1)%nat by lia. rewrite <- drop_drop, Hd. reflexivity.
Qed.

(** ** What a call keeps *)

Section Keeps.

Context (R : world -> world -> Prop) `{!PreOrder R}.

Lemma keeps_ret {A} (a : A) : keeps R (ret a).
Proof. intros w a' w' H. injection H as _ H. subst w'. reflexivity. Qed.

Lemma keeps_gets {A} (f : world -> A) : keeps R (gets f).
Proof. intros w a' w' H. injection H as _ H. subst w'. reflexivity. Qed.

Lemma keeps_crash {A} f : keeps R (@crash A f).
Proof. intros w a' w' H. discriminate. Qed.

Lemma keeps_modify f : (forall w, R w (f w)) -> keeps R (modify f).
Proof. intros Hf w a' w' H. injection H as H. subst w'. apply Hf. Qed.

Lemma keeps_bind {A B} (c : M A) (k : A -> M B) :
  keeps R c -> (forall a, keeps R (k a)) -> keeps R (x <- c ;; k x).
Proof.
  intros Hc Hk w b w' H. unfold bind in H. destruct (c w) as [a w1|] eqn:E; [|discriminate].
  transitivity w1; [eapply Hc, E|eapply Hk, H].
Qed.

Lemma keeps_bind_ret {A B} (a : A) (k : A -> M B) :
  keeps R (k a) -> keeps R (x <- ret a ;; k x).
Proof. intros Hk w b w' H. eapply Hk, H. Qed.

Lemma keeps_bind_crash {A B} f (k : A -> M B) : keeps R (x <- crash f ;; k x).
Proof. intros w b w' H. discriminate. Qed.

Lemma keeps_assert b : keeps R (c_assert b).
Proof. destruct b; [apply keeps_ret|apply keeps_crash]. Qed.

End Keeps.

Arguments keeps_ret {R _ A} a.
Arguments keeps_gets {R _ A} f.
Arguments keeps_crash {R A} f.
Arguments keeps_modify {R} f _.
Arguments keeps_bind {R _ A B} c k _ _.
Arguments keeps_assert {R _} b.
Arguments keeps_bind_ret {R A B} a k _.
Arguments keeps_bind_crash {R A B} f k.

Lemma keeps_weaken {A} (R R' : world -> world -> Prop) (c : M A) :
  (forall w w', R w w' -> R' w w') -> keeps R c -> keeps R' c.
Proof. intros Hsub Hc w a w' H. eapply Hsub, Hc, H. Qed.

#[local] Instance same_channels_preorder : PreOrder same_channels.
Proof.
  split; [intros w; reflexivity|].
  intros w1 w2 w3 H1 H2. unfold same_channels in *. congruence.
Qed.

#[local] Instance bindings_kept_preorder : PreOrder bindings_kept.
Proof.
  split; [intros w t e H; exact H|].
  intros w1 w2 w3 H1 H2 t e H. apply H2, H1, H.
Qed.

#[local] Instance bindings_apart_preorder key : PreOrder (bindings_apart key).
Proof.
  split; [intros w t H; reflexivity|].
  intros w1 w2 w3 H1 H2 t H. rewrite H2, H1 by assumption. reflexivity.
Qed.

Lemma same_channels_bindings_kept w w' : same_channels w w' -> bindings_kept w w'.
Proof. intros H t e. unfold binding. rewrite H. auto. Qed.

Lemma same_channels_bindings_apart key w w' : same_channels w w' -> bindings_apart key w w'.
Proof. intros H t _. unfold binding. rewrite H. reflexivity. Qed.

(** Steps over code that leaves the channel table alone. *)
Ltac keeps_channels :=
  repeat first
    [ apply keeps_ret | apply keeps_gets | apply keeps_crash | apply keeps_assert
    | apply keeps_modify; intros ?; unfold same_channels; reflexivity
    | apply keeps_bind; [|intros ?]
    | match goal with
      | |- keeps _ (match ?x with _ => _ end) => destruct x
      end
    | assumption ].

Lemma done_keeps ref status : keeps same_channels (_accel_engine_done ref status).
Proof. unfold _accel_engine_done, emit. keeps_channels. Qed.

Lemma hw_register_keeps e : keeps same_channels (spdk_accel_hw_engine_register e).
Proof. unfold spdk_accel_hw_engine_register, emit. keeps_channels. Qed.

Lemma module_list_add_keeps m : keeps same_channels (spdk_accel_module_list_add m).
Proof. unfold spdk_accel_module_list_add. keeps_channels. Qed.

Lemma sw_engine_init_keeps : keeps same_channels sw_accel_engine_init.
Proof.
  unfold sw_accel_engine_init, accel_sw_register, spdk_io_device_register. keeps_channels.
Qed.

Lemma initialize_from_keeps l : keeps same_channels (accel_engine_module_initialize_from l).
Proof.
  induction l as [|m l IH]; simpl; [apply keeps_ret|].
  apply keeps_bind; [|intros _; exact IH].
  unfold call_module_init, emit. destruct (module_init m).
  - apply keeps_bind; [apply sw_engine_init_keeps|intros _; apply keeps_ret].
  - keeps_channels.
Qed.

Lemma initialize_keeps : keeps same_channels spdk_accel_engine_initialize.
Proof.
  unfold spdk_accel_engine_initialize, accel_engine_module_initialize, emit,
    spdk_io_device_register.
  apply keeps_bind; [keeps_channels|intros _].
  apply keeps_bind; [|intros _; keeps_channels].
  apply keeps_bind; [keeps_channels|intros l; apply initialize_from_keeps].
Qed.

Lemma module_finish_at_keeps rest : forall i, keeps same_channels (module_finish_at rest i).
Proof.
  induction rest as [|m rest IH]; intros i; simpl.
  - unfold accel_engine_module_finish_cb, emit. keeps_channels.
  - apply keeps_bind; [keeps_channels|intros _].
    destruct (module_fini m); [|apply IH].
    unfold spdk_thread_send_msg, emit. keeps_channels.
Qed.

Lemma module_finish_keeps : keeps same_channels spdk_accel_engine_module_finish.
Proof.
  unfold spdk_accel_engine_module_finish.
  apply keeps_bind; [keeps_channels|intros cursor].
  apply keeps_bind; [keeps_channels|intros l]. apply module_finish_at_keeps.
Qed.

Lemma finish_keeps cb_fn cb_arg : keeps same_channels (spdk_accel_engine_finish cb_fn cb_arg).
Proof.
  unfold spdk_accel_engine_finish, spdk_io_device_unregister.
  apply keeps_bind; [keeps_channels|intros _].
  apply keeps_bind; [keeps_channels|intros _].
  apply keeps_bind; [keeps_channels|intros _]. apply module_finish_keeps.
Qed.

Lemma thread_poll_keeps : keeps same_channels thread_poll.
Proof.
  unfold thread_poll. apply keeps_bind; [keeps_channels|intros q].
  destruct q as [|fn q]; [apply keeps_ret|].
  apply keeps_bind; [keeps_channels|intros _].
  apply keeps_bind; [unfold emit; keeps_channels|intros _].
  destruct fn; simpl; [|apply module_finish_keeps].
  unfold sw_accel_engine_fini, spdk_io_device_unregister, accel_sw_unregister.
  apply keeps_bind; [keeps_channels|intros _].
  apply keeps_bind; [keeps_channels|intros _]. apply module_finish_keeps.
Qed.

(** The operations of the software engine reach the channel table only
    through their callback. *)
Lemma sw_ops_keep (cb : completion_fn) :
  (forall r st, keeps same_channels (cb r st)) ->
  (forall a c d s n, keeps same_channels (sw_accel_submit_copy a c d s n cb))
  /\ (forall a c d1 d2 s n, keeps same_channels (sw_accel_submit_dualcast a c d1 d2 s n cb))
  /\ (forall a c s1 s2 n, keeps same_channels (sw_accel_submit_compare a c s1 s2 n cb))
  /\ (forall a c d v n, keeps same_channels (sw_accel_submit_fill a c d v n cb))
  /\ (forall a c d s seed n, keeps same_channels (sw_accel_submit_crc32c a c d s seed n cb)).
Proof.
  intros Hcb. repeat split; intros;
    unfold sw_accel_submit_copy, sw_accel_submit_dualcast, sw_accel_submit_compare,
      sw_accel_submit_fill, sw_accel_submit_crc32c;
    repeat (apply keeps_bind; [|intros ?]);
    first [apply Hcb | keeps_channels].
Qed.

(** The example hardware engines keep the contract of a hardware module. *)
Lemma demo_hw_contract offset id : hw_contract (demo_hw_engine offset id).
Proof.
  split; simpl.
  - intros w a w' E. injection E as _ E. subst w'. repeat split.
  - intros a c d s n cb Hcb. apply keeps_bind; [keeps_channels|intros _].
    apply keeps_bind; [apply Hcb|intros _; apply keeps_ret].
  - intros a c d1 d2 s n cb Hcb. apply keeps_bind; [keeps_channels|intros _].
    apply keeps_bind; [apply Hcb|intros _; apply keeps_ret].
  - intros a c s1 s2 n cb Hcb. apply keeps_bind; [keeps_channels|intros r].
    apply keeps_bind; [apply Hcb|intros _; apply keeps_ret].
  - intros a c d v n cb Hcb. apply keeps_bind; [keeps_channels|intros _].
    apply keeps_bind; [apply Hcb|intros _; apply keeps_ret].
  - intros a c d s seed n cb Hcb. apply keeps_bind; [keeps_channels|intros _].
    apply keeps_bind; [apply Hcb|intros _; apply keeps_ret].
Qed.

Lemma sw_engine_init_ready w :
  g_sw_accel_engine w = None ->
  exists w', sw_accel_engine_init w = Ok 0 w' /\ sw_ready w'.
Proof.
  intros Hnone. unfold sw_accel_engine_init, accel_sw_register, spdk_io_device_register. run.
  rewrite Hnone. simpl. eexists. split; [reflexivity|].
  split; [reflexivity|]. simpl. apply list_elem_of_here.
Qed.

(** ** Channels *)

Lemma ctx_set_ch_apart key c : keeps (bindings_apart key) (ctx_set_ch key c).
Proof.
  apply keeps_modify. intros w t Hne. unfold binding. simpl.
  rewrite lookup_alter_ne by congruence. reflexivity.
Qed.

Lemma ctx_set_engine_apart key e : keeps (bindings_apart key) (ctx_set_engine key e).
Proof.
  apply keeps_modify. intros w t Hne. unfold binding. simpl.
  rewrite lookup_alter_ne by congruence. reflexivity.
Qed.

(** A channel of the software engine is an entry of the software device. *)
Lemma sw_get_io_channel_apart key : keeps (bindings_apart key) sw_accel_get_io_channel.
Proof.
  intros w a w' H t _. unfold sw_accel_get_io_channel, spdk_get_io_channel in H.
  unfold sw_accel_create_cb in H. run.
  destruct (bool_decide (sw_dev ∈ io_devices w)); [|injection H as _ H; subst w'; reflexivity].
  destruct (channels w !! (sw_dev, cur_thread w)); simpl in H;
    injection H as _ H; subst w'; unfold binding; simpl;
    rewrite lookup_insert_ne by congruence; reflexivity.
Qed.

Lemma sw_get_io_channel_run w :
  sw_dev ∈ io_devices w ->
  sw_accel_get_io_channel w
  = Ok (Some (io_chan sw_dev (cur_thread w)))
       (set_channels
          (<[(sw_dev, cur_thread w) :=
               match channels w !! (sw_dev, cur_thread w) with
               | Some r => channel_get r
               | None => fresh_channel
               end]> (channels w)) w).
Proof.
  intros H. unfold sw_accel_get_io_channel, spdk_get_io_channel, sw_accel_create_cb. run.
  rewrite bool_decide_eq_true_2 by assumption.
  destruct (channels w !! (sw_dev, cur_thread w)); reflexivity.
Qed.

Lemma bound_after (key : io_device * Z) (e : option engine_ref) (c : option chan_ptr)
    (m : gmap (io_device * Z) spdk_io_channel) (r : spdk_io_channel) :
  m !! key = Some r ->
  exists r', alter (with_engine e) key (alter (with_ch c) key m) !! key = Some r'
             /\ chan_ctx r' = {| engine := e; ch := c |}.
Proof.
  intros H. rewrite !lookup_alter_eq, H. simpl. eexists. split; reflexivity.
Qed.

Lemma create_sw_channel_run key w :
  sw_ready w ->
  create_sw_channel key w
  = Ok 0 (set_channels
            (alter (with_engine (Some sw_accel_engine_ref)) key
               (alter (with_ch (Some (io_chan sw_dev (cur_thread w)))) key
                  (<[(sw_dev, cur_thread w) :=
                       match channels w !! (sw_dev, cur_thread w) with
                       | Some r => channel_get r
                       | None => fresh_channel
                       end]> (channels w)))) w).
Proof.
  intros [Hsw Hdev]. unfold create_sw_channel.
  unfold bind at 1. unfold gets at 1. rewrite Hsw. simpl.
  unfold bind at 1. rewrite sw_get_io_channel_run by assumption.
  unfold ctx_set_ch, ctx_set_engine. run. rewrite Hsw. reflexivity.
Qed.

Lemma create_cb_no_hw_run key w :
  g_hw_accel_engine w = None -> accel_engine_create_cb key w = create_sw_channel key w.
Proof.
  intros H. unfold accel_engine_create_cb. unfold bind at 1. unfold gets at 1.
  rewrite H. reflexivity.
Qed.

Lemma create_cb_hw_run key id c1 w w1 :
  g_hw_accel_engine w = Some (hw_engine_ref id) ->
  get_io_channel (hw_engine id) w = Ok (Some c1) w1 ->
  accel_engine_create_cb key w
  = Ok 0 (set_channels
            (alter (with_engine (g_hw_accel_engine w1)) key
               (alter (with_ch (Some c1)) key (channels w1))) w1).
Proof.
  intros H E. unfold accel_engine_create_cb. unfold bind at 1. unfold gets at 1.
  rewrite H. simpl. unfold bind at 1. rewrite E.
  unfold ctx_set_ch, ctx_set_engine. run. reflexivity.
Qed.

Lemma create_cb_hw_null_run key id w w1 :
  g_hw_accel_engine w = Some (hw_engine_ref id) ->
  get_io_channel (hw_engine id) w = Ok None w1 ->
  accel_engine_create_cb key w
  = create_sw_channel key (set_channels (alter (with_ch None) key (channels w1)) w1).
Proof.
  intros H E. unfold accel_engine_create_cb. unfold bind at 1. unfold gets at 1.
  rewrite H. simpl. unfold bind at 1. rewrite E.
  unfold ctx_set_ch. unfold bind at 1. unfold modify at 1. reflexivity.
Qed.

Lemma get_io_channel_cached_run w r :
  accel_dev ∈ io_devices w ->
  channels w !! (accel_dev, cur_thread w) = Some r ->
  spdk_accel_engine_get_io_channel w
  = Ok (Some (io_chan accel_dev (cur_thread w)))
       (set_channels (<[(accel_dev, cur_thread w) := channel_get r]> (channels w)) w).
Proof.
  intros Hdev Hl. unfold spdk_accel_engine_get_io_channel, spdk_get_io_channel.
  unfold bind at 1. unfold gets at 1. rewrite bool_decide_eq_true_2 by assumption.
  unfold bind at 1. unfold gets at 1. unfold bind at 1. unfold gets at 1.
  rewrite Hl. reflexivity.
Qed.

Lemma get_io_channel_fresh_run w w' :
  accel_dev ∈ io_devices w ->
  channels w !! (accel_dev, cur_thread w) = None ->
  accel_engine_create_cb (accel_dev, cur_thread w)
    (set_channels (<[(accel_dev, cur_thread w) := fresh_channel]> (channels w)) w)
  = Ok 0 w' ->
  spdk_accel_engine_get_io_channel w = Ok (Some (io_chan accel_dev (cur_thread w))) w'.
Proof.
  intros Hdev Hl E. unfold spdk_accel_engine_get_io_channel, spdk_get_io_channel.
  unfold bind at 1. unfold gets at 1. rewrite bool_decide_eq_true_2 by assumption.
  unfold bind at 1. unfold gets at 1. unfold bind at 1. unfold gets at 1.
  rewrite Hl. unfold bind at 1. unfold modify at 1. unfold bind at 1.
  rewrite E. reflexivity.
Qed.

#[local] Instance channel_stays_preorder key : PreOrder (channel_stays key).
Proof.
  split; [intros w; repeat split; auto|].
  intros w1 w2 w3 (D1 & T1 & S1) (D2 & T2 & S2). repeat split; [congruence|congruence|auto].
Qed.

Lemma ctx_set_ch_stays key k c : keeps (channel_stays key) (ctx_set_ch k c).
Proof.
  apply keeps_modify. intros w. repeat split. simpl.
  rewrite lookup_alter_is_Some. auto.
Qed.

Lemma ctx_set_engine_stays key k e : keeps (channel_stays key) (ctx_set_engine k e).
Proof.
  apply keeps_modify. intros w. repeat split. simpl.
  rewrite lookup_alter_is_Some. auto.
Qed.

Lemma sw_get_io_channel_stays key : keeps (channel_stays key) sw_accel_get_io_channel.
Proof.
  intros w a w' H. unfold sw_accel_get_io_channel, spdk_get_io_channel in H.
  unfold sw_accel_create_cb in H. run.
  destruct (bool_decide (sw_dev ∈ io_devices w));
    [|injection H as _ H; subst w'; reflexivity].
  destruct (channels w !! (sw_dev, cur_thread w)); simpl in H;
    injection H as _ H; subst w'; repeat split; simpl;
    rewrite lookup_insert_is_Some; intros Hs;
    (destruct (decide ((sw_dev, cur_thread w) = key)); [left; assumption|right; auto]).
Qed.

Section HardwareContract.

Hypothesis hw_ok : forall id, hw_contract (hw_engine id).

Lemma engine_ops_keep e (cb : completion_fn) :
  (forall r st, keeps same_channels (cb r st)) ->
  (forall a c d s n, keeps same_channels (copy (engine_at e) a c d s n cb))
  /\ (forall a c d1 d2 s n, keeps same_channels (dualcast (engine_at e) a c d1 d2 s n cb))
  /\ (forall a c s1 s2 n, keeps same_channels (compare (engine_at e) a c s1 s2 n cb))
  /\ (forall a c d v n, keeps same_channels (fill (engine_at e) a c d v n cb))
  /\ (forall a c d s seed n, keeps same_channels (crc32c (engine_at e) a c d s seed n cb)).
Proof.
  intros Hcb. destruct e as [|id]; simpl.
  - apply sw_ops_keep, Hcb.
  - destruct (hw_ok id). repeat split; intros; auto.
Qed.

Lemma load_accel_ch_keeps c : keeps same_channels (load_accel_ch c).
Proof. unfold load_accel_ch. keeps_channels. Qed.

Ltac submit_keeps :=
  apply keeps_bind; [unfold accel_req_set_cb; keeps_channels|intros _];
  apply keeps_bind; [apply load_accel_ch_keeps|];
  let ctx := fresh "ctx" in
  intros ctx; unfold bound_engine;
  let e := fresh "e" in
  destruct (engine ctx) as [e|];
  [apply keeps_bind_ret; apply (engine_ops_keep e _ done_keeps)
  |apply keeps_bind_crash].

Lemma submit_copy_keeps r c dst src n cb :
  keeps same_channels (spdk_accel_submit_copy r c dst src n cb).
Proof. unfold spdk_accel_submit_copy. submit_keeps. Qed.

Lemma submit_dualcast_keeps r c dst1 dst2 src n cb :
  keeps same_channels (spdk_accel_submit_dualcast r c dst1 dst2 src n cb).
Proof.
  unfold spdk_accel_submit_dualcast.
  destruct (negb _ || negb _); [unfold emit; keeps_channels|]. submit_keeps.
Qed.

Lemma submit_compare_keeps r c src1 src2 n cb :
  keeps same_channels (spdk_accel_submit_compare r c src1 src2 n cb).
Proof. unfold spdk_accel_submit_compare. submit_keeps. Qed.

Lemma submit_fill_keeps r c dst v n cb :
  keeps same_channels (spdk_accel_submit_fill r c dst v n cb).
Proof. unfold spdk_accel_submit_fill. submit_keeps. Qed.

Lemma submit_crc32c_keeps r c dst src seed n cb :
  keeps same_channels (spdk_accel_submit_crc32c r c dst src seed n cb).
Proof. unfold spdk_accel_submit_crc32c. submit_keeps. Qed.

Lemma get_io_channel_apart key e : keeps (bindings_apart key) (get_io_channel (engine_at e)).
Proof.
  destruct e as [|id]; simpl; [apply sw_get_io_channel_apart|].
  eapply keeps_weaken; [|apply (hw_get_io_channel _ (hw_ok id))].
  intros w w' (_ & _ & _ & H & _). apply same_channels_bindings_apart, H.
Qed.

Lemma create_sw_channel_apart key : keeps (bindings_apart key) (create_sw_channel key).
Proof.
  unfold create_sw_channel. apply keeps_bind; [apply keeps_gets|intros sw].
  destruct sw as [s|]; [|apply keeps_crash].
  apply keeps_bind; [apply get_io_channel_apart|intros c].
  apply keeps_bind; [apply ctx_set_ch_apart|intros _].
  apply keeps_bind; [apply keeps_assert|intros _].
  apply keeps_bind; [apply keeps_gets|intros sw'].
  apply keeps_bind; [apply ctx_set_engine_apart|intros _]. apply keeps_ret.
Qed.

Lemma create_cb_apart key : keeps (bindings_apart key) (accel_engine_create_cb key).
Proof.
  unfold accel_engine_create_cb. apply keeps_bind; [apply keeps_gets|intros hw].
  destruct hw as [h|]; [|apply create_sw_channel_apart].
  apply keeps_bind; [apply get_io_channel_apart|intros c].
  apply keeps_bind; [apply ctx_set_ch_apart|intros _].
  destruct c; [|apply create_sw_channel_apart].
  apply keeps_bind; [apply keeps_gets|intros hw'].
  apply keeps_bind; [apply ctx_set_engine_apart|intros _]. apply keeps_ret.
Qed.

(** A request for the channel of a thread creates at most the binding of
    that thread, and only when the thread has none. *)
Lemma get_io_channel_kept : keeps bindings_kept spdk_accel_engine_get_io_channel.
Proof.
  intros w a w' H. unfold spdk_accel_engine_get_io_channel, spdk_get_io_channel in H.
  unfold bind at 1 in H. unfold gets at 1 in H.
  destruct (bool_decide (accel_dev ∈ io_devices w));
    [|injection H as _ H; subst w'; reflexivity].
  unfold bind at 1 in H. unfold gets at 1 in H.
  unfold bind at 1 in H. unfold gets at 1 in H.
  set (key := (accel_dev, cur_thread w)) in *.
  destruct (channels w !! key) as [r|] eqn:Hl.
  - run. injection H as _ H. subst w'. intros t e. unfold binding. simpl.
    destruct (decide (key = (accel_dev, t))) as [<-|Hne].
    + rewrite lookup_insert_eq, Hl. auto.
    + rewrite lookup_insert_ne by assumption. auto.
  - unfold bind at 1 in H. unfold modify at 1 in H.
    assert (A : bindings_apart key w w').
    { etransitivity; [|eapply (keeps_bind (R := bindings_apart key)); [apply create_cb_apart| |exact H]].
      - intros t Hne. unfold binding. simpl. rewrite lookup_insert_ne by congruence. reflexivity.
      - intros rc. cbv beta. destruct (rc =? 0); [apply keeps_ret|].
        apply keeps_bind; [|intros _; apply keeps_ret].
        apply keeps_modify. intros w0 t Hne. unfold binding. simpl.
        rewrite lookup_delete_ne by congruence. reflexivity. }
    intros t e Hb. destruct (decide ((accel_dev, t) = key)) as [E|Hne].
    + unfold binding in Hb. rewrite E, Hl in Hb. discriminate.
    + rewrite A by assumption. exact Hb.
Qed.

(** Whatever is called, an existing binding stays. *)
Lemma run_call_kept a : keeps bindings_kept (run_call a).
Proof.
  destruct a; simpl;
    try (apply keeps_bind; [|intros _; apply keeps_ret]);
    try apply get_io_channel_kept;
    (eapply keeps_weaken; [apply same_channels_bindings_kept|]).
  - apply hw_register_keeps.
  - apply module_list_add_keeps.
  - apply initialize_keeps.
  - apply submit_copy_keeps.
  - apply submit_dualcast_keeps.
  - apply submit_compare_keeps.
  - apply submit_fill_keeps.
  - apply submit_crc32c_keeps.
  - apply finish_keeps.
  - apply thread_poll_keeps.
  - apply keeps_modify. intros w. reflexivity.
Qed.

Lemma run_calls_kept l : keeps bindings_kept (run_calls l).
Proof.
  induction l as [|a l IH]; simpl; [apply keeps_ret|].
  apply keeps_bind; [apply run_call_kept|intros _; exact IH].
Qed.

Lemma get_io_channel_stays key e : keeps (channel_stays key) (get_io_channel (engine_at e)).
Proof.
  destruct e as [|id]; simpl; [apply sw_get_io_channel_stays|].
  eapply keeps_weaken; [|apply (hw_get_io_channel _ (hw_ok id))].
  intros w w' (_ & _ & D & C & T). repeat split; [assumption|assumption|].
  rewrite C. auto.
Qed.

Lemma create_sw_channel_stays key k : keeps (channel_stays key) (create_sw_channel k).
Proof.
  unfold create_sw_channel. apply keeps_bind; [apply keeps_gets|intros sw].
  destruct sw as [s|]; [|apply keeps_crash].
  apply keeps_bind; [apply get_io_channel_stays|intros c].
  apply keeps_bind; [apply ctx_set_ch_stays|intros _].
  apply keeps_bind; [apply keeps_assert|intros _].
  apply keeps_bind; [apply keeps_gets|intros sw'].
  apply keeps_bind; [apply ctx_set_engine_stays|intros _]. apply keeps_ret.
Qed.

Lemma create_cb_stays key k : keeps (channel_stays key) (accel_engine_create_cb k).
Proof.
  unfold accel_engine_create_cb. apply keeps_bind; [apply keeps_gets|intros hw].
  destruct hw as [h|]; [|apply create_sw_channel_stays].
  apply keeps_bind; [apply get_io_channel_stays|intros c].
  apply keeps_bind; [apply ctx_set_ch_stays|intros _].
  destruct c; [|apply create_sw_channel_stays].
  apply keeps_bind; [apply keeps_gets|intros hw'].
  apply keeps_bind; [apply ctx_set_engine_stays|intros _]. apply keeps_ret.
Qed.

(** After a request that returned a channel, the thread has it cached. *)
Lemma get_io_channel_cached_after w c1 w1 :
  spdk_accel_engine_get_io_channel w = Ok (Some c1) w1 ->
  c1 = io_chan accel_dev (cur_thread w)
  /\ accel_dev ∈ io_devices w1
  /\ cur_thread w1 = cur_thread w
  /\ is_Some (channels w1 !! (accel_dev, cur_thread w)).
Proof.
  intros H. unfold spdk_accel_engine_get_io_channel, spdk_get_io_channel in H.
  unfold bind at 1 in H. unfold gets at 1 in H.
  destruct (bool_decide (accel_dev ∈ io_devices w)) eqn:Hdev; [|discriminate].
  apply bool_decide_eq_true_1 in Hdev.
  unfold bind at 1 in H. unfold gets at 1 in H.
  unfold bind at 1 in H. unfold gets at 1 in H.
  set (key := (accel_dev, cur_thread w)) in *.
  destruct (channels w !! key) as [r|] eqn:Hl.
  - run. injection H as <- H. subst w1. simpl. repeat split; try assumption.
    rewrite lookup_insert_eq. eauto.
  - unfold bind at 1 in H. unfold modify at 1 in H. unfold bind at 1 in H.
    match type of H with context [accel_engine_create_cb key ?w0] =>
      destruct (accel_engine_create_cb key w0) as [rc wa|] eqn:E; [|discriminate];
      pose proof (create_cb_stays key key w0 rc wa E) as (D & T & S) end.
    simpl in D, T, S. destruct (rc =? 0).
    + injection H as <- H. subst w1. repeat split; try congruence.
      apply S. rewrite lookup_insert_eq. eauto.
    + run. discriminate.
Qed.


End HardwareContract.

(** * Further properties of the code *)

(** ** Operations through the dispatcher *)

Lemma memset_frame (m : memory) dst v n a :
  a < dst \/ dst + n <= a -> memset m dst v n a = m a.
Proof.
  intros Ha. unfold memset. apply memset_loop_frame.
  destruct (Z.le_gt_cases 0 n); [rewrite Z2Nat.id by lia; lia|].
  replace (Z.to_nat n) with O by lia. simpl. lia.
Qed.

Lemma memset_fills (m : memory) dst v n i :
  0 <= i < n -> memset m dst v n (dst + i) = v.
Proof. intros Hi. unfold memset. apply memset_loop_fills. lia. Qed.

Lemma store_u32_frame (m : memory) p v a :
  a < p \/ p + 4 <= a -> store_u32 m p v a = m a.
Proof.
  intros Ha. unfold store_u32. rewrite !store_ne by lia. reflexivity.
Qed.




(** ** Start-up *)

Lemma set_trace_app w l1 l2 :
  set_trace (trace (set_trace (trace w ++ l1) w) ++ l2) (set_trace (trace w ++ l1) w)
  = set_trace (trace w ++ l1 ++ l2) w.
Proof. destruct w. simpl. rewrite <- app_assoc. reflexivity. Qed.

Lemma initialize_from_run l : forall w,
  accel_engine_module_initialize_from l w
  = match sw_init_count l with
    | O => Ok tt (set_trace (trace w ++ external_inits l) w)
    | S O =>
        match g_sw_accel_engine w with
        | None =>
            Ok tt (set_trace (trace w ++ external_inits l)
                     (set_io_devices (sw_dev :: io_devices w)
                        (set_sw (Some sw_accel_engine_ref) w)))
        | Some _ => Crash AssertFailed
        end
    | _ => Crash AssertFailed
    end.
Proof.
  induction l as [|m l IH]; intros w; simpl.
  - rewrite app_nil_r, world_eta. reflexivity.
  - unfold bind at 1. unfold call_module_init. destruct (module_init m) as [|id].
    + unfold sw_accel_engine_init, accel_sw_register, spdk_io_device_register.
      unfold bind, gets, modify, ret, c_assert, crash. simpl.
      destruct (g_sw_accel_engine w) as [e|] eqn:Hsw; simpl.
      * destruct (sw_init_count l); reflexivity.
      * rewrite IH. simpl. destruct (sw_init_count l) as [|[|n]]; reflexivity.
    + unfold emit at 1. unfold modify at 1. rewrite IH. simpl.
      destruct (sw_init_count l) as [|[|n]].
      * rewrite (set_trace_app w [EvModuleInit (module_init_hook id)]). reflexivity.
      * destruct (g_sw_accel_engine w); [reflexivity|].
        destruct w. simpl. rewrite <- app_assoc. reflexivity.
      * reflexivity.
Qed.

Lemma initialize_run w :
  spdk_accel_engine_initialize w
  = match sw_init_count (spdk_accel_module_list w) with
    | O =>
        Ok 0 (set_io_devices (accel_dev :: io_devices w)
                (set_trace (trace w ++ start_notice
                              :: external_inits (spdk_accel_module_list w)) w))
    | S O =>
        match g_sw_accel_engine w with
        | None =>
            Ok 0 (set_io_devices (accel_dev :: sw_dev :: io_devices w)
                    (set_sw (Some sw_accel_engine_ref)
                       (set_trace (trace w ++ start_notice
                                     :: external_inits (spdk_accel_module_list w)) w)))
        | Some _ => Crash AssertFailed
        end
    | _ => Crash AssertFailed
    end.
Proof.
  assert (E : spdk_accel_engine_initialize w
              = ( accel_engine_module_initialize_from (spdk_accel_module_list w) ;;
                  spdk_io_device_register accel_dev ;; ret 0)
                  (set_trace (trace w ++ [start_notice]) w)) by reflexivity.
  rewrite E. unfold bind at 1. rewrite initialize_from_run. simpl.
  destruct (sw_init_count (spdk_accel_module_list w)) as [|[|n]]; [| |reflexivity].
  - unfold spdk_io_device_register. run.
    destruct w. simpl. rewrite <- app_assoc. reflexivity.
  - destruct (g_sw_accel_engine w); [reflexivity|].
    unfold spdk_io_device_register. run.
    destruct w. simpl. rewrite <- app_assoc. reflexivity.
Qed.

(** X4. Start-up. [spdk_accel_engine_initialize] logs its notice, calls
    the init hook of every module once, in registration order, registers
    the framework device and returns 0. With [sw_accel_engine_init] as
    the hook of exactly one module and an empty software slot, it leaves
    the software engine in the slot and the software device registered,
    so that channels can then be created. *)
Theorem initialize_runs_hooks_in_order w :
  let l := spdk_accel_module_list w in
  let seen := set_trace (trace w ++ start_notice :: external_inits l) w in
  (sw_init_count l = 0%nat ->
   spdk_accel_engine_initialize w
   = Ok 0 (set_io_devices (accel_dev :: io_devices w) seen))
  /\ (sw_init_count l = 1%nat -> g_sw_accel_engine w = None ->
      exists w',
        spdk_accel_engine_initialize w = Ok 0 w'
        /\ w' = set_io_devices (accel_dev :: sw_dev :: io_devices w)
                  (set_sw (Some sw_accel_engine_ref) seen)
        /\ sw_ready w'
        /\ accel_dev ∈ io_devices w').
Proof.
  intros l seen. subst seen l. rewrite initialize_run. split.
  - intros H0. rewrite H0. reflexivity.
  - intros H1 Hsw. rewrite H1, Hsw. eexists. split; [reflexivity|].
    split; [reflexivity|]. split; [split; [reflexivity|]|]; simpl.
    + apply list_elem_of_further, list_elem_of_here.
    + apply list_elem_of_here.
Qed.

(** X5. The software engine registers once. [accel_sw_register] on an
    occupied slot fails its assertion; so does start-up when the slot is
    occupied and a module has [sw_accel_engine_init] as hook, or when two
    modules have it; and so does a second start-up after a first one
    that registered the software engine. *)
Theorem software_registers_once w :
  let l := spdk_accel_module_list w in
  (forall e, g_sw_accel_engine w <> None -> accel_sw_register e w = Crash AssertFailed)
  /\ ((1 <= sw_init_count l)%nat -> g_sw_accel_engine w <> None ->
      spdk_accel_engine_initialize w = Crash AssertFailed)
  /\ ((2 <= sw_init_count l)%nat -> spdk_accel_engine_initialize w = Crash AssertFailed)
  /\ (sw_init_count l = 1%nat -> g_sw_accel_engine w = None ->
      (spdk_accel_engine_initialize ;; spdk_accel_engine_initialize) w
      = Crash AssertFailed).
Proof.
  intros l. subst l. split; [|split; [|split]].
  - intros e Hsw. unfold accel_sw_register. run.
    destruct (g_sw_accel_engine w); [reflexivity|congruence].
  - intros Hc Hsw. rewrite initialize_run.
    destruct (sw_init_count (spdk_accel_module_list w)) as [|[|n]]; [lia| |reflexivity].
    destruct (g_sw_accel_engine w); [reflexivity|congruence].
  - intros Hc. rewrite initialize_run.
    destruct (sw_init_count (spdk_accel_module_list w)) as [|[|n]]; [lia|lia|reflexivity].
  - intros H1 Hsw. unfold bind. rewrite initialize_run, H1, Hsw.
    rewrite initialize_run. simpl. rewrite H1. reflexivity.
Qed.

(** ** Shutdown to its end *)

#[local] Instance shutdown_keeps_preorder : PreOrder shutdown_keeps.
Proof.
  split.
  - intros w. repeat split; auto. intros d Hd. exact Hd.
  - intros w1 w2 w3 (L1 & M1 & H1 & D1 & S1) (L2 & M2 & H2 & D2 & S2).
    repeat split; [congruence|congruence|congruence| |auto].
    intros d Hd. apply D1, D2, Hd.
Qed.

Lemma unregister_shrinks d w :
  shutdown_keeps w (set_io_devices (filter (fun d' => d' <> d) (io_devices w)) w).
Proof.
  repeat split; auto. intros d0 Hd. simpl in Hd.
  apply list_elem_of_filter in Hd. apply Hd.
Qed.

Ltac keeps_shutdown :=
  repeat first
    [ apply keeps_ret | apply keeps_gets | apply keeps_crash | apply keeps_assert
    | apply keeps_modify; intros ?; repeat split; auto; intros ? Hd; exact Hd
    | apply keeps_bind; [|intros ?]
    | match goal with
      | |- keeps _ (match ?x with _ => _ end) => destruct x
      end ].

Lemma module_finish_at_shutdown rest : forall i, keeps shutdown_keeps (module_finish_at rest i).
Proof.
  induction rest as [|m rest IH]; intros i; simpl.
  - unfold accel_engine_module_finish_cb, emit. keeps_shutdown.
  - apply keeps_bind; [keeps_shutdown|intros _].
    destruct (module_fini m); [|apply IH].
    unfold spdk_thread_send_msg, emit. keeps_shutdown.
Qed.

Lemma module_finish_shutdown : keeps shutdown_keeps spdk_accel_engine_module_finish.
Proof.
  unfold spdk_accel_engine_module_finish.
  apply keeps_bind; [keeps_shutdown|intros cursor].
  apply keeps_bind; [keeps_shutdown|intros l]. apply module_finish_at_shutdown.
Qed.

Lemma run_fini_hook_shutdown fn : keeps shutdown_keeps (run_fini_hook fn).
Proof.
  destruct fn; simpl; [|apply module_finish_shutdown].
  unfold sw_accel_engine_fini, spdk_io_device_unregister, accel_sw_unregister.
  apply keeps_bind; [apply keeps_modify; intros w; apply unregister_shrinks|intros _].
  apply keeps_bind; [keeps_shutdown|intros _]. apply module_finish_shutdown.
Qed.

(** The last advance: with no hook left, the final callback is called
    and the lifecycle state is cleared. *)
Lemma module_finish_at_last cb_fn rest : forall i w,
  fini_hooks rest = [] -> g_fini_cb_fn w = Some cb_fn ->
  module_finish_at rest i w
  = Ok tt (set_fini_cb None 0
             (set_trace (trace w ++ [EvFiniCb cb_fn (g_fini_cb_arg w)])
                        (set_cursor None w))).
Proof.
  induction rest as [|m rest IH]; intros i w Hh Hcb.
  - simpl. unfold accel_engine_module_finish_cb. run. rewrite Hcb. reflexivity.
  - unfold fini_hooks in Hh. simpl in Hh.
    simpl module_finish_at. destruct (module_fini m) as [h|]; [discriminate|].
    unfold bind at 1. unfold modify at 1. rewrite IH by assumption. reflexivity.
Qed.

(** An advance that finds a hook sends it, whatever the callback. *)
Lemma module_finish_at_sends rest : forall i w h hs,
  fini_hooks rest = h :: hs ->
  exists w', module_finish_at rest i w = Ok tt w'
             /\ trace w' = trace w ++ [EvSendMsg (cur_thread w) h]
             /\ msgq w' = msgq w ++ [h]
             /\ g_fini_cb_fn w' = g_fini_cb_fn w.
Proof.
  induction rest as [|m rest IH]; intros i w h hs Hh; [discriminate|].
  unfold fini_hooks in Hh. simpl in Hh. simpl module_finish_at.
  destruct (module_fini m) as [h0|].
  - injection Hh as -> _. unfold spdk_thread_send_msg. run.
    eexists. repeat split.
  - unfold bind at 1. unfold modify at 1.
    destruct (IH (S i) (set_cursor (Some i) w) h hs Hh) as (w' & E & Htr & Hq & Hcb).
    exists w'. repeat split; assumption.
Qed.

Lemma module_finish_at_no_callback rest : forall i w,
  fini_hooks rest = [] -> g_fini_cb_fn w = None ->
  module_finish_at rest i w = Crash NullCall.
Proof.
  induction rest as [|m rest IH]; intros i w Hh Hcb.
  - simpl. unfold accel_engine_module_finish_cb. run. rewrite Hcb. reflexivity.
  - unfold fini_hooks in Hh. simpl in Hh.
    simpl module_finish_at. destruct (module_fini m) as [h|]; [discriminate|].
    unfold bind at 1. unfold modify at 1. apply IH; assumption.
Qed.

Lemma module_finish_last cb_fn cb_arg w :
  finishing cb_fn cb_arg [] w ->
  exists w', spdk_accel_engine_module_finish w = Ok tt w'
             /\ g_accel_engine_module w' = None
             /\ g_fini_cb_fn w' = None
             /\ g_fini_cb_arg w' = 0
             /\ msgq w' = msgq w.
Proof.
  intros [Hcb Harg Hrest]. unfold spdk_accel_engine_module_finish.
  unfold bind at 1. unfold gets at 1. unfold bind at 1. unfold gets at 1.
  rewrite (module_finish_at_last cb_fn) by assumption.
  eexists. repeat split.
Qed.

Lemma run_fini_hook_last cb_fn cb_arg fn w :
  finishing cb_fn cb_arg [] w ->
  exists w', run_fini_hook fn w = Ok tt w'
             /\ g_accel_engine_module w' = None
             /\ g_fini_cb_fn w' = None
             /\ g_fini_cb_arg w' = 0
             /\ msgq w' = msgq w.
Proof.
  intros F. destruct fn as [|id]; simpl; [|apply (module_finish_last cb_fn cb_arg), F].
  unfold sw_accel_engine_fini, spdk_io_device_unregister, accel_sw_unregister.
  unfold bind at 1. unfold modify at 1. unfold bind at 1. unfold modify at 1.
  match goal with |- context [spdk_accel_engine_module_finish ?w0] =>
    destruct (module_finish_last cb_fn cb_arg w0) as (w' & E & H) end.
  - destruct F. split; assumption.
  - exists w'. split; [exact E|exact H].
Qed.

(** The software hook empties the software slot and unregisters the
    software device. *)
Lemma sw_fini_unregisters w w' :
  run_fini_hook sw_accel_engine_fini_hook w = Ok tt w' ->
  g_sw_accel_engine w' = None /\ sw_dev ∉ io_devices w'.
Proof.
  simpl. unfold sw_accel_engine_fini, spdk_io_device_unregister, accel_sw_unregister.
  unfold bind at 1. unfold modify at 1. unfold bind at 1. unfold modify at 1.
  intros E. destruct (module_finish_shutdown _ _ _ E) as (_ & _ & _ & D & S).
  split; [apply S; reflexivity|]. intros Hin. apply D in Hin. simpl in Hin.
  apply list_elem_of_filter in Hin. destruct Hin as [Hne _]. congruence.
Qed.

Lemma thread_poll_to_end cb_fn cb_arg hs : forall h k w,
  finishing cb_fn cb_arg hs w -> msgq w = [h] -> (length hs < k)%nat ->
  exists w',
    thread_poll_n k w = Ok tt w'
    /\ lifecycle_idle w'
    /\ shutdown_keeps w w'
    /\ (sw_accel_engine_fini_hook ∈ h :: hs ->
        g_sw_accel_engine w' = None /\ sw_dev ∉ io_devices w').
Proof.
  induction hs as [|h2 hs IH]; intros h k w F Hq Hk;
    (destruct k as [|k]; [simpl in Hk; lia|]);
    simpl thread_poll_n; unfold bind at 1; unfold thread_poll;
    unfold bind at 1; unfold gets at 1; rewrite Hq;
    unfold bind at 1; unfold modify at 1; unfold bind at 1; unfold emit at 1;
    unfold modify at 1.
  - match goal with |- context [run_fini_hook h ?w0] =>
      destruct (run_fini_hook_last cb_fn cb_arg h w0) as (w1 & E & Hc & Hcb & Ha & Hm);
      [destruct F; split; assumption|];
      pose proof (run_fini_hook_shutdown h w0 tt w1 E) as K end.
    rewrite E. simpl in Hm. rewrite thread_poll_idle by exact Hm.
    exists w1. split; [reflexivity|]. split; [repeat split; assumption|].
    split; [exact K|].
    intros Hin. apply elem_of_cons in Hin. destruct Hin as [<-|Hin].
    + apply (sw_fini_unregisters _ _ E).
    + apply elem_of_nil in Hin. contradiction.
  - match goal with |- context [run_fini_hook h ?w0] =>
      destruct (run_fini_hook_run cb_fn cb_arg (h2 :: hs) h w0)
        as (w1 & E & Ht & Htr & Hm & F1);
      [destruct F; split; assumption|];
      pose proof (run_fini_hook_shutdown h w0 tt w1 E) as K end.
    rewrite E. simpl in Hm.
    destruct (IH h2 k w1 F1 Hm) as (w' & E' & Hidle & K' & Hswf); [simpl in Hk; lia|].
    exists w'. split; [exact E'|]. split; [exact Hidle|].
    split; [etransitivity; [exact K|exact K']|].
    intros Hin. apply elem_of_cons in Hin. destruct Hin as [<-|Hin].
    + destruct (sw_fini_unregisters _ _ E) as (Hs & Hd).
      destruct K' as (_ & _ & _ & D' & S'). split; [apply S', Hs|].
      intros Hin'. apply Hd, D', Hin'.
    + apply Hswf, Hin.
Qed.

(** A whole shutdown, from [spdk_accel_engine_finish] to the final
    callback. *)
Lemma shutdown_run w cb_fn cb_arg k :
  g_accel_engine_module w = None -> msgq w = [] ->
  (length (fini_hooks (spdk_accel_module_list w)) <= k)%nat ->
  exists w',
    (spdk_accel_engine_finish (Some cb_fn) cb_arg ;; thread_poll_n k) w = Ok tt w'
    /\ lifecycle_idle w'
    /\ shutdown_keeps w w'
    /\ (accel_dev ∉ io_devices w')
    /\ (sw_accel_engine_fini_hook ∈ fini_hooks (spdk_accel_module_list w) ->
        g_sw_accel_engine w' = None /\ sw_dev ∉ io_devices w').
Proof.
  intros Hc Hq Hk.
  unfold spdk_accel_engine_finish, spdk_io_device_unregister.
  unfold bind at 1. unfold bind at 1. unfold c_assert.
  rewrite bool_decide_eq_true_2 by discriminate. unfold ret at 1.
  unfold bind at 1. unfold modify at 1. unfold bind at 1. unfold modify at 1.
  match goal with |- context [spdk_accel_engine_module_finish ?w0] => set (w0' := w0) end.
  assert (K0 : shutdown_keeps w w0').
  { etransitivity; [|apply (unregister_shrinks accel_dev)]. subst w0'.
    repeat split; auto. intros d Hd. exact Hd. }
  assert (Hgone : accel_dev ∉ io_devices w0').
  { subst w0'. simpl. intros Hin. apply list_elem_of_filter in Hin.
    destruct Hin as [Hne _]. congruence. }
  assert (F0 : finishing cb_fn cb_arg (fini_hooks (spdk_accel_module_list w)) w0').
  { subst w0'. split; simpl; try reflexivity. rewrite Hc. reflexivity. }
  destruct (fini_hooks (spdk_accel_module_list w)) as [|h hs] eqn:Hh.
  - destruct (module_finish_last cb_fn cb_arg w0' F0) as (w1 & E & Hcur & Hcb & Ha & Hm).
    pose proof (module_finish_shutdown w0' tt w1 E) as K1.
    rewrite E. assert (Hm1 : msgq w1 = []) by (rewrite Hm; subst w0'; exact Hq).
    rewrite thread_poll_idle by exact Hm1.
    exists w1. split; [reflexivity|]. split; [repeat split; assumption|].
    split; [etransitivity; [exact K0|exact K1]|]. split.
    + intros Hin. destruct K1 as (_ & _ & _ & D1 & _). apply Hgone, D1, Hin.
    + intros Hin. apply elem_of_nil in Hin. contradiction.
  - destruct (module_finish_run cb_fn cb_arg (h :: hs) w0' F0) as (w1 & E & Ht & Htr & Hm & F1).
    pose proof (module_finish_shutdown w0' tt w1 E) as K1.
    rewrite E. assert (Hm1 : msgq w1 = [h]) by (rewrite Hm; subst w0'; simpl; rewrite Hq; reflexivity).
    destruct (thread_poll_to_end cb_fn cb_arg hs h k w1 F1 Hm1) as (w' & E' & Hidle & K' & Hswf);
      [simpl in Hk; lia|].
    exists w'. split; [exact E'|]. split; [exact Hidle|].
    split; [etransitivity; [exact K0|]; etransitivity; [exact K1|exact K']|]. split.
    + intros Hin. destruct K1 as (_ & _ & _ & D1 & _). destruct K' as (_ & _ & _ & D' & _).
      apply Hgone, D1, D', Hin.
    + exact Hswf.
Qed.

Lemma bind_seq {A B} (a : M A) (b : M B) w :
  (a ;; b) w = match a w with Ok _ w' => b w' | Crash f => Crash f end.
Proof. reflexivity. Qed.

Lemma bind_seq3 {A B C} (a : M A) (b : M B) (c : M C) w :
  (a ;; b ;; c) w = match (a ;; b) w with Ok _ w' => c w' | Crash f => Crash f end.
Proof. unfold bind. destruct (a w); reflexivity. Qed.

(** X6. A shutdown that runs to its end. From a state without cursor and
    without pending messages, [spdk_accel_engine_finish] and as many
    turns of the message loop as there are hooks (or more) return with
    the lifecycle state cleared: no cursor, no callback, no argument, no
    message. The module list, the cached context size and the hardware
    slot are as before, the framework device is unregistered, no device
    was added, and when [sw_accel_engine_fini] is among the hooks the
    software slot is empty and the software device unregistered. *)
Theorem shutdown_clears_state w cb_fn cb_arg k :
  g_accel_engine_module w = None -> msgq w = [] ->
  (length (fini_hooks (spdk_accel_module_list w)) <= k)%nat ->
  exists w',
    (spdk_accel_engine_finish (Some cb_fn) cb_arg ;; thread_poll_n k) w = Ok tt w'
    /\ lifecycle_idle w'
    /\ shutdown_keeps w w'
    /\ (accel_dev ∉ io_devices w')
    /\ (sw_accel_engine_fini_hook ∈ fini_hooks (spdk_accel_module_list w) ->
        g_sw_accel_engine w' = None /\ sw_dev ∉ io_devices w').
Proof. apply shutdown_run. Qed.

(** X7. The edges of the shutdown. [spdk_accel_engine_finish] with a NULL
    callback fails its assertion. An advance of the cursor that finds no
    hook while no callback is pending calls through NULL. After a
    shutdown has run to its end, one more call of
    [spdk_accel_engine_module_finish] (a hook that signals twice) starts
    the walk again from the first module: without hooks it calls through
    the cleared callback, with hooks it sends the first hook once more. *)
Theorem shutdown_edges w cb_fn cb_arg k :
  (forall arg, spdk_accel_engine_finish None arg w = Crash AssertFailed)
  /\ (g_fini_cb_fn w = None ->
      fini_hooks (drop (next_position (g_accel_engine_module w))
                       (spdk_accel_module_list w)) = [] ->
      spdk_accel_engine_module_finish w = Crash NullCall)
  /\ (g_accel_engine_module w = None -> msgq w = [] ->
      (length (fini_hooks (spdk_accel_module_list w)) <= k)%nat ->
      match fini_hooks (spdk_accel_module_list w) with
      | [] =>
          (spdk_accel_engine_finish (Some cb_fn) cb_arg ;; thread_poll_n k ;;
           spdk_accel_engine_module_finish) w = Crash NullCall
      | h :: _ =>
          exists w',
            (spdk_accel_engine_finish (Some cb_fn) cb_arg ;; thread_poll_n k ;;
             spdk_accel_engine_module_finish) w = Ok tt w'
            /\ msgq w' = [h]
            /\ g_fini_cb_fn w' = None
      end).
Proof.
  split; [|split].
  - intros arg. reflexivity.
  - intros Hcb Hh. unfold spdk_accel_engine_module_finish.
    unfold bind at 1. unfold gets at 1. unfold bind at 1. unfold gets at 1.
    apply module_finish_at_no_callback; assumption.
  - intros Hc Hq Hk.
    destruct (shutdown_run w cb_fn cb_arg k Hc Hq Hk)
      as (w1 & E & (Hcur & Hcb & _ & Hm) & (Hl & _) & _).
    assert (Hmf : spdk_accel_engine_module_finish w1
                  = module_finish_at (spdk_accel_module_list w) 0 w1).
    { unfold spdk_accel_engine_module_finish.
      unfold bind at 1. unfold gets at 1. unfold bind at 1. unfold gets at 1.
      rewrite Hcur, Hl. reflexivity. }
    destruct (fini_hooks (spdk_accel_module_list w)) as [|h hs] eqn:Hh.
    + rewrite bind_seq3, E, Hmf. apply module_finish_at_no_callback; assumption.
    + destruct (module_finish_at_sends (spdk_accel_module_list w) 0 w1 h hs Hh)
        as (w' & E' & _ & Hq' & Hcb').
      exists w'. rewrite bind_seq3, E, Hmf. split; [exact E'|].
      rewrite Hq', Hm, Hcb', Hcb. split; reflexivity.
Qed.

(** X8. The lifecycle can start again. With [sw_accel_engine_init] as
    init hook of exactly one module and [sw_accel_engine_fini] among the
    finalization hooks, from an idle state with an empty software slot:
    start-up succeeds and registers the software engine, a shutdown that
    runs to its end empties the slot again, and a second start-up then
    succeeds like the first. *)
Theorem lifecycle_restarts w cb_fn cb_arg k :
  lifecycle_idle w -> g_sw_accel_engine w = None ->
  sw_init_count (spdk_accel_module_list w) = 1%nat ->
  sw_accel_engine_fini_hook ∈ fini_hooks (spdk_accel_module_list w) ->
  (length (fini_hooks (spdk_accel_module_list w)) <= k)%nat ->
  exists w1 w2 w3,
    spdk_accel_engine_initialize w = Ok 0 w1
    /\ sw_ready w1
    /\ (spdk_accel_engine_finish (Some cb_fn) cb_arg ;; thread_poll_n k) w1 = Ok tt w2
    /\ lifecycle_idle w2
    /\ g_sw_accel_engine w2 = None
    /\ (accel_dev ∉ io_devices w2)
    /\ (sw_dev ∉ io_devices w2)
    /\ spdk_accel_engine_initialize w2 = Ok 0 w3
    /\ sw_ready w3
    /\ accel_dev ∈ io_devices w3.
Proof.
  intros (Hcur & _ & _ & Hq) Hsw Hone Hfini Hk.
  pose proof (initialize_run w) as E1. rewrite Hone, Hsw in E1.
  match type of E1 with _ = Ok 0 ?x => set (w1 := x) in * end.
  assert (Hl1 : spdk_accel_module_list w1 = spdk_accel_module_list w) by reflexivity.
  destruct (shutdown_run w1 cb_fn cb_arg k) as (w2 & E2 & Hidle & (Hl2 & _) & Hgone & Hswf);
    [exact Hcur|exact Hq|rewrite Hl1; exact Hk|].
  destruct Hswf as (Hsw2 & Hsd2); [rewrite Hl1; exact Hfini|].
  pose proof (initialize_run w2) as E3. rewrite Hl2, Hl1, Hone, Hsw2 in E3.
  eexists w1, w2, _. split; [exact E1|]. split.
  { split; [reflexivity|]. simpl. apply list_elem_of_further, list_elem_of_here. }
  split; [exact E2|]. split; [exact Hidle|]. split; [exact Hsw2|].
  split; [exact Hgone|]. split; [exact Hsd2|].
  split; [exact E3|]. split.
  - split; [reflexivity|]. simpl. apply list_elem_of_further, list_elem_of_here.
  - simpl. apply list_elem_of_here.
Qed.

(** ** Channel creation at its edges *)

Lemma sw_get_io_channel_unregistered w :
  sw_dev ∉ io_devices w -> sw_accel_get_io_channel w = Ok None w.
Proof.
  intros H. unfold sw_accel_get_io_channel, spdk_get_io_channel.
  unfold bind at 1. unfold gets at 1. rewrite bool_decide_eq_false_2 by assumption.
  reflexivity.
Qed.

Lemma get_io_channel_fresh_crash w f :
  accel_dev ∈ io_devices w ->
  channels w !! (accel_dev, cur_thread w) = None ->
  accel_engine_create_cb (accel_dev, cur_thread w)
    (set_channels (<[(accel_dev, cur_thread w) := fresh_channel]> (channels w)) w)
  = Crash f ->
  spdk_accel_engine_get_io_channel w = Crash f.
Proof.
  intros Hdev Hl E. unfold spdk_accel_engine_get_io_channel, spdk_get_io_channel.
  unfold bind at 1. unfold gets at 1. rewrite bool_decide_eq_true_2 by assumption.
  unfold bind at 1. unfold gets at 1. unfold bind at 1. unfold gets at 1.
  rewrite Hl. unfold bind at 1. unfold modify at 1. unfold bind at 1.
  rewrite E. reflexivity.
Qed.

(** X9. Channel creation and the software engine. Without a hardware
    engine, or when the hardware engine has no channel, creation reads
    through the software slot: with an empty slot that is a NULL
    dereference, and with the software engine in the slot but its device
    not registered the assertion on the channel fails; a first request
    for a channel by a thread then faults the same way. A hardware engine
    that returns a channel is bound without a look at the software
    slot. *)
Theorem create_channel_needs_software key w :
  (g_hw_accel_engine w = None -> g_sw_accel_engine w = None ->
   accel_engine_create_cb key w = Crash NullDeref)
  /\ (forall id w1,
        g_hw_accel_engine w = Some (hw_engine_ref id) ->
        get_io_channel (hw_engine id) w = Ok None w1 ->
        g_sw_accel_engine w1 = None ->
        accel_engine_create_cb key w = Crash NullDeref)
  /\ (g_hw_accel_engine w = None ->
      g_sw_accel_engine w = Some sw_accel_engine_ref ->
      sw_dev ∉ io_devices w ->
      accel_engine_create_cb key w = Crash AssertFailed)
  /\ (g_hw_accel_engine w = None -> g_sw_accel_engine w = None ->
      accel_dev ∈ io_devices w ->
      channels w !! (accel_dev, cur_thread w) = None ->
      spdk_accel_engine_get_io_channel w = Crash NullDeref)
  /\ (forall id c1 w1 r,
        g_hw_accel_engine w = Some (hw_engine_ref id) ->
        get_io_channel (hw_engine id) w = Ok (Some c1) w1 ->
        channels w1 !! key = Some r ->
        exists w',
          accel_engine_create_cb key w = Ok 0 w'
          /\ channels w' !! key
             = Some {| chan_ref := chan_ref r;
                       chan_ctx := {| engine := g_hw_accel_engine w1; ch := Some c1 |} |}
          /\ g_sw_accel_engine w' = g_sw_accel_engine w1).
Proof.
  split; [|split; [|split; [|split]]].
  - intros Hhw Hsw. rewrite create_cb_no_hw_run by assumption.
    unfold create_sw_channel. run. rewrite Hsw. reflexivity.
  - intros id w1 Hhw E Hsw. rewrite (create_cb_hw_null_run key id w w1) by assumption.
    unfold create_sw_channel. run. rewrite Hsw. reflexivity.
  - intros Hhw Hsw Hdev. rewrite create_cb_no_hw_run by assumption.
    unfold create_sw_channel. unfold bind at 1. unfold gets at 1. rewrite Hsw. simpl.
    unfold bind at 1. rewrite sw_get_io_channel_unregistered by assumption.
    reflexivity.
  - intros Hhw Hsw Hdev Hl. apply get_io_channel_fresh_crash; [assumption|assumption|].
    rewrite create_cb_no_hw_run by assumption.
    unfold create_sw_channel. run. rewrite Hsw. reflexivity.
  - intros id c1 w1 r Hhw E Hr. rewrite (create_cb_hw_run key id c1 w w1) by assumption.
    eexists. split; [reflexivity|]. simpl. split; [|reflexivity].
    rewrite !lookup_alter_eq, Hr. reflexivity.
Qed.

Section Rest.

Context {rest : platform_rest}.

Lemma bound_rest_run c ctx w :
  channel_ctx w c ctx ->
  forall A (k : accel_io_channel -> spdk_accel_engine_rest -> M A),
    (ctx' <- load_accel_ch (spdk_io_channel_get_ctx c) ;;
     e <- bound_engine_rest ctx' ;; k ctx' e) w
    = (e <- bound_engine_rest ctx ;; k ctx e) w.
Proof.
  intros Hb A k. unfold bind at 1. rewrite (load_accel_ch_ok _ c ctx) by assumption.
  reflexivity.
Qed.

(** X10. The batch entry points. On a channel of the software engine
    each of the four batch functions calls through a NULL pointer: the
    software engine has none of them. On a channel of a hardware engine
    an entry point that is NULL faults the same way, and one that is
    there is called with the channel of the engine; for submit and
    prep-copy the caller's callback is stored in the task first and the
    engine gets the trampoline. *)
Theorem batch_dispatch accel_req c e c0 batch dst src nbytes cb w :
  channel_ctx w c {| engine := Some e; ch := c0 |} ->
  let w1 := set_task_cb (<[accel_req := cb]> (task_cb w)) w in
  (e = sw_accel_engine_ref ->
   spdk_accel_batch_create c w = Crash NullCall
   /\ spdk_accel_batch_get_max c w = Crash NullCall
   /\ spdk_accel_batch_submit accel_req c batch cb w = Crash NullCall
   /\ spdk_accel_batch_prep_copy accel_req c batch dst src nbytes cb w = Crash NullCall)
  /\ spdk_accel_batch_create c w
     = call_entry (batch_create (engine_rest_at e)) (fun fn => fn c0) w
  /\ spdk_accel_batch_get_max c w
     = call_entry (batch_get_max (engine_rest_at e)) (fun fn => fn) w
  /\ spdk_accel_batch_submit accel_req c batch cb w
     = call_entry (batch_submit (engine_rest_at e))
         (fun fn => fn (offload_ctx accel_req) c0 batch _accel_engine_done) w1
  /\ spdk_accel_batch_prep_copy accel_req c batch dst src nbytes cb w
     = call_entry (batch_prep_copy (engine_rest_at e))
         (fun fn => fn (offload_ctx accel_req) c0 batch dst src nbytes _accel_engine_done)
         w1.
Proof.
  intros Hb w1.
  assert (Hc : spdk_accel_batch_create c w
               = call_entry (batch_create (engine_rest_at e)) (fun fn => fn c0) w).
  { unfold spdk_accel_batch_create.
    rewrite (bound_rest_run c _ w Hb _
               (fun x e0 => call_entry (batch_create e0) (fun fn => fn (ch x)))).
    reflexivity. }
  assert (Hm : spdk_accel_batch_get_max c w
               = call_entry (batch_get_max (engine_rest_at e)) (fun fn => fn) w).
  { unfold spdk_accel_batch_get_max.
    rewrite (bound_rest_run c _ w Hb _
               (fun x e0 => call_entry (batch_get_max e0) (fun fn => fn))).
    reflexivity. }
  assert (Hs : spdk_accel_batch_submit accel_req c batch cb w
               = call_entry (batch_submit (engine_rest_at e))
                   (fun fn => fn (offload_ctx accel_req) c0 batch _accel_engine_done) w1).
  { unfold spdk_accel_batch_submit, accel_req_set_cb.
    unfold bind at 1. unfold modify at 1.
    rewrite (bound_rest_run c _ _ (channel_ctx_set_task_cb _ _ _ _ Hb) _
               (fun x e0 => call_entry (batch_submit e0)
                  (fun fn => fn (offload_ctx accel_req) (ch x) batch _accel_engine_done))).
    reflexivity. }
  assert (Hp : spdk_accel_batch_prep_copy accel_req c batch dst src nbytes cb w
               = call_entry (batch_prep_copy (engine_rest_at e))
                   (fun fn => fn (offload_ctx accel_req) c0 batch dst src nbytes
                                 _accel_engine_done) w1).
  { unfold spdk_accel_batch_prep_copy, accel_req_set_cb.
    unfold bind at 1. unfold modify at 1.
    rewrite (bound_rest_run c _ _ (channel_ctx_set_task_cb _ _ _ _ Hb) _
               (fun x e0 => call_entry (batch_prep_copy e0)
                  (fun fn => fn (offload_ctx accel_req) (ch x) batch dst src nbytes
                                _accel_engine_done))).
    reflexivity. }
  split; [|split; [exact Hc|split; [exact Hm|split; [exact Hs|exact Hp]]]].
  intros ->. rewrite Hc, Hm, Hs, Hp. repeat split.
Qed.

Lemma land_wrap64_flag x f :
  0 <= f < 2 ^ 64 -> Z.land (wrap64 x) f = Z.land x f.
Proof.
  intros Hf. unfold wrap64. apply Z.bits_inj'. intros i Hi.
  rewrite !Z.land_spec. destruct (Z.lt_ge_cases i 64).
  - rewrite Z.mod_pow2_bits_low by lia. reflexivity.
  - assert (Hz : Z.testbit f i = false).
    { destruct (Z.eq_dec f 0) as [->|Hne]; [apply Z.bits_0|].
      apply Z.bits_above_log2; [lia|].
      apply Z.lt_le_trans with 64; [|assumption].
      apply Z.log2_lt_pow2; lia. }
    rewrite Hz, !andb_false_r. reflexivity.
Qed.

(** X11. The capability query. On a channel of the software engine
    [spdk_accel_get_capabilities] returns the mask of the software engine
    and leaves the state as it is; every one of the five flags copy,
    fill, crc32c, compare and dual-cast that is a 64-bit value is
    contained in the mask. On a channel of a hardware engine the query is
    the query of that engine. *)
Theorem capabilities_of_channel c e c0 w :
  channel_ctx w c {| engine := Some e; ch := c0 |} ->
  spdk_accel_get_capabilities c w = get_capabilities (engine_rest_at e) w
  /\ (e = sw_accel_engine_ref ->
      exists caps,
        spdk_accel_get_capabilities c w = Ok caps w
        /\ forall f,
            f ∈ [ACCEL_COPY; ACCEL_FILL; ACCEL_CRC32C; ACCEL_COMPARE; ACCEL_DUALCAST] ->
            0 <= f < 2 ^ 64 -> Z.land caps f = f).
Proof.
  intros Hb.
  assert (Hq : spdk_accel_get_capabilities c w = get_capabilities (engine_rest_at e) w).
  { unfold spdk_accel_get_capabilities.
    rewrite (bound_rest_run c _ w Hb _ (fun _ e0 => get_capabilities e0)). reflexivity. }
  split; [exact Hq|]. intros ->. rewrite Hq. simpl. unfold sw_accel_get_capabilities, ret.
  eexists. split; [reflexivity|]. intros f Hin Hf.
  rewrite land_wrap64_flag by assumption.
  apply Z.bits_inj'. intros i Hi. rewrite Z.land_spec, !Z.lor_spec.
  repeat (apply elem_of_cons in Hin; destruct Hin as [->|Hin]);
    [| | | | |apply elem_of_nil in Hin; contradiction];
    match goal with |- _ && ?b = ?b => destruct b end;
    rewrite ?orb_true_r, ?orb_true_l, ?andb_false_r; reflexivity.
Qed.

End Rest.

(** ** From start-up to a completed operation *)

(** X12. The software path from start-up to completion. In a state
    without hardware engine, with an empty software slot and
    [sw_accel_engine_init] as hook of exactly one module: start-up
    succeeds, the first channel request of the thread returns a channel
    that is bound to the software engine, and a copy submitted on that
    channel returns 0 with the source bytes in the destination and one
    call of the caller's callback, with status 0, as the last event. *)
Theorem software_path_end_to_end w accel_req dst src nbytes cb :
  g_hw_accel_engine w = None -> g_sw_accel_engine w = None ->
  sw_init_count (spdk_accel_module_list w) = 1%nat ->
  channels w !! (accel_dev, cur_thread w) = None ->
  0 <= accel_req < 2 ^ 64 ->
  disjoint dst src nbytes ->
  exists w1 w2 w3,
    spdk_accel_engine_initialize w = Ok 0 w1
    /\ spdk_accel_engine_get_io_channel w1
       = Ok (Some (io_chan accel_dev (cur_thread w))) w2
    /\ binding w2 (cur_thread w) = Some sw_accel_engine_ref
    /\ spdk_accel_submit_copy accel_req (io_chan accel_dev (cur_thread w))
         dst src nbytes cb w2 = Ok 0 w3
    /\ (forall i, 0 <= i < nbytes -> mem w3 (dst + i) = mem w (src + i))
    /\ trace w3
       = trace w ++ start_notice :: external_inits (spdk_accel_module_list w)
                 ++ [EvCompletion cb accel_req 0].
Proof.
  intros Hhw Hsw Hone Hl R D.
  pose proof (initialize_run w) as E1. rewrite Hone, Hsw in E1.
  match type of E1 with _ = Ok 0 ?x => set (w1 := x) in * end.
  set (t := cur_thread w). set (key := (accel_dev, t)).
  set (w0 := set_channels (<[key := fresh_channel]> (channels w1)) w1).
  assert (Hcr : accel_engine_create_cb key w0 = create_sw_channel key w0)
    by (apply create_cb_no_hw_run; exact Hhw).
  rewrite create_sw_channel_run in Hcr
    by (split; [reflexivity|simpl; apply list_elem_of_further, list_elem_of_here]).
  match type of Hcr with _ = Ok 0 (set_channels (alter _ _ (alter _ _ ?m)) _) =>
    destruct (bound_after key (Some sw_accel_engine_ref) (Some (io_chan sw_dev t))
                m fresh_channel) as (r' & Hr & Hc) end.
  { rewrite lookup_insert_ne by discriminate. apply lookup_insert_eq. }
  match type of Hcr with _ = Ok 0 ?x => set (w2 := x) in * end.
  assert (E2 : spdk_accel_engine_get_io_channel w1 = Ok (Some (io_chan accel_dev t)) w2).
  { apply (get_io_channel_fresh_run w1 w2);
      [simpl; apply list_elem_of_here|exact Hl|exact Hcr]. }
  assert (Hb : channel_ctx w2 (io_chan accel_dev t)
                 {| engine := Some sw_accel_engine_ref; ch := Some (io_chan sw_dev t) |}).
  { exists t, r'. repeat split; assumption. }
  exists w1, w2. eexists. split; [exact E1|]. split; [exact E2|]. split.
  { unfold binding. fold key. replace (channels w2 !! key) with (Some r') by (symmetry; exact Hr).
    rewrite Hc. reflexivity. }
  split; [apply (sw_dispatch_copy _ _ _ _ _ Hb R)|]. simpl. split.
  - intros i Hi. apply memcpy_copies; assumption.
  - rewrite <- app_assoc. reflexivity.
Qed.

(** X13. The hardware path from channel request to operation. When the
    registered hardware engine returns a channel and leaves the
    framework's state alone, the first channel request of a thread binds
    the new channel to that engine, and every submit on the channel
    (dual-cast with aligned destinations) is the function of that engine,
    called with the private context of the task, the channel that the
    engine returned at creation and the trampoline, after the caller's
    callback has been stored in the task. *)
Theorem hardware_path_end_to_end w id c1 w1 accel_req cb :
  accel_dev ∈ io_devices w ->
  channels w !! (accel_dev, cur_thread w) = None ->
  g_hw_accel_engine w = Some (hw_engine_ref id) ->
  get_io_channel (hw_engine id)
    (set_channels (<[(accel_dev, cur_thread w) := fresh_channel]> (channels w)) w)
  = Ok (Some c1) w1 ->
  same_framework
    (set_channels (<[(accel_dev, cur_thread w) := fresh_channel]> (channels w)) w) w1 ->
  exists w2,
    let c := io_chan accel_dev (cur_thread w) in
    let w3 := set_task_cb (<[accel_req := cb]> (task_cb w2)) w2 in
    let ctx := offload_ctx accel_req in
    spdk_accel_engine_get_io_channel w = Ok (Some c) w2
    /\ binding w2 (cur_thread w) = Some (hw_engine_ref id)
    /\ (forall dst src n,
          spdk_accel_submit_copy accel_req c dst src n cb w2
          = copy (hw_engine id) ctx (Some c1) dst src n _accel_engine_done w3)
    /\ (forall dst1 dst2 src n,
          dst1 mod 4096 = 0 -> dst2 mod 4096 = 0 ->
          spdk_accel_submit_dualcast accel_req c dst1 dst2 src n cb w2
          = dualcast (hw_engine id) ctx (Some c1) dst1 dst2 src n _accel_engine_done w3)
    /\ (forall src1 src2 n,
          spdk_accel_submit_compare accel_req c src1 src2 n cb w2
          = compare (hw_engine id) ctx (Some c1) src1 src2 n _accel_engine_done w3)
    /\ (forall dst v n,
          spdk_accel_submit_fill accel_req c dst v n cb w2
          = fill (hw_engine id) ctx (Some c1) dst v n _accel_engine_done w3)
    /\ (forall dst src seed n,
          spdk_accel_submit_crc32c accel_req c dst src seed n cb w2
          = crc32c (hw_engine id) ctx (Some c1) dst src seed n _accel_engine_done w3).
Proof.
  intros Hdev Hl Hhw E (G & _ & _ & C & T).
  set (t := cur_thread w) in *. set (key := (accel_dev, t)) in *.
  pose proof (create_cb_hw_run key id c1
                (set_channels (<[key := fresh_channel]> (channels w)) w) w1 Hhw E) as Hcr.
  match type of Hcr with _ = Ok 0 ?x => set (w2 := x) in * end.
  destruct (bound_after key (g_hw_accel_engine w1) (Some c1) (channels w1) fresh_channel)
    as (r' & Hr & Hc).
  { rewrite C. simpl. apply lookup_insert_eq. }
  assert (Hg : g_hw_accel_engine w1 = Some (hw_engine_ref id))
    by (rewrite G; exact Hhw).
  assert (Hb : channel_ctx w2 (io_chan accel_dev t)
                 {| engine := Some (hw_engine_ref id); ch := Some c1 |}).
  { exists t, r'. rewrite <- Hg. repeat split; assumption. }
  exists w2. cbv zeta. split.
  { apply (get_io_channel_fresh_run w w2); assumption. }
  split.
  { unfold binding. fold key. replace (channels w2 !! key) with (Some r') by (symmetry; exact Hr).
    rewrite Hc. exact Hg. }
  repeat split.
  - intros dst src n. unfold spdk_accel_submit_copy.
    rewrite (dispatch_to_engine _ _ _ _
               (fun x e k => copy e (offload_ctx accel_req) (ch x) dst src n k) _ Hb).
    reflexivity.
  - intros dst1 dst2 src n A1 A2. unfold spdk_accel_submit_dualcast.
    rewrite aligned_passes by assumption.
    rewrite (dispatch_to_engine _ _ _ _
               (fun x e k => dualcast e (offload_ctx accel_req) (ch x) dst1 dst2 src n k) _ Hb).
    reflexivity.
  - intros src1 src2 n. unfold spdk_accel_submit_compare.
    rewrite (dispatch_to_engine _ _ _ _
               (fun x e k => compare e (offload_ctx accel_req) (ch x) src1 src2 n k) _ Hb).
    reflexivity.
  - intros dst v n. unfold spdk_accel_submit_fill.
    rewrite (dispatch_to_engine _ _ _ _
               (fun x e k => fill e (offload_ctx accel_req) (ch x) dst v n k) _ Hb).
    reflexivity.
  - intros dst src seed n. unfold spdk_accel_submit_crc32c.
    rewrite (dispatch_to_engine _ _ _ _
               (fun x e k => crc32c e (offload_ctx accel_req) (ch x) dst src seed n k) _ Hb).
    reflexivity.
Qed.

End Properties.

(** * The theorems at work on the concrete platform *)

(** The checksum of the nine digits is the published check value of
    CRC32C, once the final complement is applied to it. *)
Example crc32c_check_value :
  Z.lxor (crc32c_update ["1"; "2"; "3"; "4"; "5"; "6"; "7"; "8"; "9"]%byte (not32 0))
         (Z.ones 32)
  = 0xE3069283.
Proof. vm_compute. reflexivity. Qed.

(** Start-up from the initial state with the software module registered
    leaves the software engine in its slot and both devices registered. *)
Example start_up_registers_software :
  exists w',
    (spdk_accel_module_list_add (@sw_accel_module demo_platform) ;;
     spdk_accel_engine_initialize) initial_world = Ok 0 w'
    /\ g_sw_accel_engine w' = Some sw_accel_engine_ref
    /\ io_devices w' = [accel_dev; sw_dev]
    /\ g_max_accel_module_size w' = 8.
Proof. eexists. split; [reflexivity|]. repeat split. Qed.

Example demo_channel_bound :
  channel_ctx demo_world_sw (io_chan accel_dev 1) demo_ctx.
Proof. exists 1, {| chan_ref := 1; chan_ctx := demo_ctx |}. repeat split. Qed.

(** C7 on the example memory: 16 bytes from 0x1000 to 0x2000. *)
Lemma sw_copy_moves_bytes_witness :
  disjoint 0x2000 0x1000 16
  /\ (forall i, 0 <= i < 16 ->
        memcpy demo_mem 0x2000 0x1000 16 (0x2000 + i) = demo_mem (0x1000 + i))
  /\ (forall i, 0 <= i < 16 ->
        memcpy demo_mem 0x2000 0x1000 16 (0x1000 + i) = demo_mem (0x1000 + i)).
Proof.
  assert (D : disjoint 0x2000 0x1000 16) by (unfold disjoint; lia).
  split; [exact D|].
  pose proof (@sw_copy_moves_bytes demo_platform 8 None 0x2000 0x1000 16
                (fun _ _ => ret tt) demo_world D) as (_ & Hd & Hs & _).
  split; [exact Hd|exact Hs].
Defined.

(** C1 on a channel of the software engine: the callback 77 of the task
    at 0x100 is called once, with the task and status 0. *)
Lemma dispatcher_trampoline_witness :
  channel_ctx demo_world_sw (io_chan accel_dev 1) demo_ctx
  /\ task_cb (set_task_cb (<[0x100 := 77]> (task_cb demo_world_sw)) demo_world_sw) !! 0x100
     = Some 77
  /\ exists w',
      @spdk_accel_submit_copy demo_platform 0x100 (io_chan accel_dev 1) 0x2000 0x1000 16 77
        demo_world_sw = Ok 0 w'
      /\ trace w' = [EvCompletion 77 0x100 0].
Proof.
  split; [exact demo_channel_bound|].
  pose proof (@dispatcher_trampoline demo_platform 0x100 (io_chan accel_dev 1)
                sw_accel_engine_ref (Some (io_chan sw_dev 1)) 77 demo_world_sw
                demo_channel_bound) as (Hcb & _ & _ & _ & _ & _ & _ & Hsw).
  split; [exact Hcb|].
  assert (R : 0 <= 0x100 < 2 ^ 64) by lia.
  destruct (Hsw eq_refl R 0x2000 0x3000 0x1000 x00 0 16) as (Hcopy & _).
  exact Hcopy.
Defined.

(** C4: an aligned dual-cast on the software channel, and one with a
    destination one byte off the boundary. *)
Lemma dualcast_alignment_witness :
  (exists w',
      @spdk_accel_submit_dualcast demo_platform 0x100 (io_chan accel_dev 1)
        0x2000 0x3000 0x1000 16 77 demo_world_sw = Ok 0 w'
      /\ (forall i, 0 <= i < 16 -> mem w' (0x2000 + i) = demo_mem (0x1000 + i))
      /\ (forall i, 0 <= i < 16 -> mem w' (0x3000 + i) = demo_mem (0x1000 + i))
      /\ trace w' = [EvCompletion 77 0x100 0])
  /\ @spdk_accel_submit_dualcast demo_platform 0x100 (io_chan accel_dev 1)
       0x2001 0x3000 0x1000 16 77 demo_world_sw
     = Ok (-22)
          (set_trace [EvErrLog "Dualcast requires 4K alignment on dst addresses"]
                     demo_world_sw).
Proof.
  split.
  - refine (proj1 (@dualcast_alignment demo_platform 0x100 (io_chan accel_dev 1)
                     0x2000 0x3000 0x1000 16 77 demo_world_sw)
                  eq_refl eq_refl (Some (io_chan sw_dev 1)) demo_channel_bound _ _ _ _);
      unfold disjoint; lia.
  - refine (proj2 (@dualcast_alignment demo_platform 0x100 (io_chan accel_dev 1)
                     0x2001 0x3000 0x1000 16 77 demo_world_sw) _).
    left. vm_compute. discriminate.
Defined.

(** C4, as the specification words it for every pair of aligned
    destinations: with 4097 bytes and destinations one page apart, both on
    a 4096-byte boundary, the call returns 0, and the last byte of the
    first destination, which is also the first byte of the second, holds
    the first byte of the source (page 0x10) and not its last (page
    0x11). *)
Lemma dualcast_overlap_differs :
  0x2000 mod 4096 = 0 /\ 0x3000 mod 4096 = 0
  /\ result_of (@spdk_accel_submit_dualcast demo_platform 0x100 (io_chan accel_dev 1)
                  0x2000 0x3000 0x10000 4097 77 demo_world_pages)
     = Some 0
  /\ option_map (fun w' => (mem w' (0x2000 + 4096), mem w' (0x3000 + 0)))
       (world_of (@spdk_accel_submit_dualcast demo_platform 0x100 (io_chan accel_dev 1)
                    0x2000 0x3000 0x10000 4097 77 demo_world_pages))
     = Some (x10, x10)
  /\ mem demo_world_pages (0x10000 + 0) = x10
  /\ mem demo_world_pages (0x10000 + 4096) = x11.
Proof. vm_compute. repeat split. Qed.

(** C8: three hardware modules register; the first stays. *)
Lemma hw_register_first_wins_witness :
  g_hw_accel_engine demo_world = None
  /\ register_all [hw_engine_ref 1; hw_engine_ref 2; hw_engine_ref 3] demo_world
     = Ok tt (set_trace [hw_notice; hw_notice] (set_hw (Some (hw_engine_ref 1)) demo_world)).
Proof.
  split; [reflexivity|].
  exact (proj1 (hw_register_first_wins (hw_engine_ref 1) [hw_engine_ref 2; hw_engine_ref 3]
                  demo_world) eq_refl).
Defined.

(** C9, as the specification words it: the size that the first module
    with a non-zero size leaves is not final. After [module_8] the cached size
    is 8, after [module_16] it is 16. *)
Lemma task_size_not_fixed :
  result_of ((spdk_accel_module_list_add module_8 ;; spdk_accel_task_size) initial_world)
  = Some 8
  /\ result_of ((spdk_accel_module_list_add module_8 ;;
                spdk_accel_module_list_add module_16 ;;
                spdk_accel_task_size) initial_world)
     = Some 16.
Proof. split; reflexivity. Qed.

(** C9 as the code has it, on the two modules in both orders. *)
Lemma task_size_is_max_witness :
  result_of ((register_modules [module_8; module_16] ;; spdk_accel_task_size) initial_world)
  = Some 16
  /\ result_of ((register_modules [module_16; module_8] ;; spdk_accel_task_size)
                 initial_world)
     = Some 16.
Proof.
  split.
  - exact (proj1 (task_size_is_max [module_8; module_16] module_8 initial_world)).
  - exact (proj1 (task_size_is_max [module_16; module_8] module_8 initial_world)).
Defined.

(** C3 on the three modules of the example state, of which the first has
    no hook: two turns of the message loop finish the shutdown. *)
Lemma finalization_is_sequential_witness :
  g_accel_engine_module demo_world = None
  /\ msgq demo_world = []
  /\ (exists w',
        (spdk_accel_engine_finish (Some 99) 5 ;; thread_poll_n 1) demo_world = Ok tt w'
        /\ trace w' = [EvSendMsg 1 sw_accel_engine_fini_hook;
                       EvMsgRun sw_accel_engine_fini_hook;
                       EvSendMsg 1 (module_fini_hook 2)]
        /\ msgq w' = [module_fini_hook 2])
  /\ (exists w',
        (spdk_accel_engine_finish (Some 99) 5 ;; thread_poll_n 2) demo_world = Ok tt w'
        /\ trace w' = [EvSendMsg 1 sw_accel_engine_fini_hook;
                       EvMsgRun sw_accel_engine_fini_hook;
                       EvSendMsg 1 (module_fini_hook 2);
                       EvMsgRun (module_fini_hook 2);
                       EvFiniCb 99 5]
        /\ msgq w' = []).
Proof.
  split; [reflexivity|]. split; [reflexivity|]. split.
  - destruct (finalization_is_sequential demo_world 99 5 1 eq_refl eq_refl)
      as (w' & E & Htr & Hq & _).
    exists w'. split; [exact E|]. split; [exact Htr|exact Hq].
  - destruct (finalization_is_sequential demo_world 99 5 2 eq_refl eq_refl)
      as (w' & E & Htr & Hq & _).
    exists w'. split; [exact E|]. split; [exact Htr|exact Hq].
Defined.

(** C10: a compare of two regions that differ returns 0 and reports the
    difference to the callback. *)
Lemma sw_submit_returns_zero_witness :
  task_cb (set_task_cb (<[0x100 := 77]> ∅) demo_world) !! 0x100 = Some 77
  /\ @sw_accel_submit_compare demo_platform 0x108 None 0x1000 0x1001 16
       (@_accel_engine_done) (set_task_cb (<[0x100 := 77]> ∅) demo_world)
     = Ok 0 (set_trace [EvCompletion 77 0x100 (-1)]
                       (set_task_cb (<[0x100 := 77]> ∅) demo_world)).
Proof.
  split; [reflexivity|].
  pose proof (@sw_submit_returns_zero demo_platform 0x108 None (@_accel_engine_done)
                (set_task_cb (<[0x100 := 77]> ∅) demo_world))
    as (_ & _ & _ & _ & _ & _ & Hdone).
  destruct (Hdone 77 eq_refl) as (_ & _ & _ & _ & Hcmp).
  exact (Hcmp 0x1000 0x1001 16).
Defined.

(** C5: the example memory compared with itself and with its neighbour. *)
Lemma sw_compare_status_witness :
  memcmp demo_mem 0x1000 0x1000 16 = 0
  /\ memcmp demo_mem 0x1000 0x1001 16 = -1
  /\ three_way (read_bytes demo_mem 0x1000 16) (read_bytes demo_mem 0x1001 16) = Lt.
Proof.
  pose proof (@sw_compare_status demo_platform 8 None 0x1000 0x1001 16
                (fun _ _ => ret tt) demo_world) as (_ & Hsign & _ & Hsame & _).
  split; [exact Hsame|]. split; [reflexivity|].
  transitivity (Z.compare (memcmp demo_mem 0x1000 0x1001 16) 0);
    [symmetry; exact Hsign|reflexivity].
Defined.

(** C6: the checksum of the nine digits with seed 0. *)
Lemma sw_crc32c_writes_checksum_witness :
  exists m : memory,
    read_bytes m 0x1000 9 = ["1"; "2"; "3"; "4"; "5"; "6"; "7"; "8"; "9"]%byte
    /\ load_u32 (store_u32 m 0x2000
                   (wrap32 (crc32c_update (read_bytes m 0x1000 9) (not32 0)))) 0x2000
       = 0x1CF96D7C.
Proof.
  exists (fun a => byte_of_Z (a - 0x1000 + 49)).
  split; [reflexivity|].
  pose proof (@sw_crc32c_writes_checksum demo_platform 8 None 0x2000 0x1000 0 9
                (fun _ _ => ret tt)
                (set_mem (fun a => byte_of_Z (a - 0x1000 + 49)) demo_world))
    as (_ & Hload & _).
  etransitivity; [exact Hload|]. vm_compute. reflexivity.
Defined.


(** * The further properties on the concrete platform *)




(** X4: start-up of the three example modules. *)
Lemma initialize_runs_hooks_in_order_witness :
  sw_init_count (spdk_accel_module_list demo_world_cold) = 1%nat
  /\ g_sw_accel_engine demo_world_cold = None
  /\ exists w',
      spdk_accel_engine_initialize demo_world_cold = Ok 0 w'
      /\ trace w' = [start_notice; EvModuleInit (module_init_hook 1);
                     EvModuleInit (module_init_hook 2)]
      /\ io_devices w' = [accel_dev; sw_dev]
      /\ g_sw_accel_engine w' = Some sw_accel_engine_ref.
Proof.
  split; [reflexivity|]. split; [reflexivity|].
  destruct (proj2 (initialize_runs_hooks_in_order demo_world_cold) eq_refl eq_refl)
    as (w' & E & Hw & _).
  exists w'. split; [exact E|]. subst w'. repeat split.
Defined.

(** X5: a second start-up of the example state. *)
Lemma software_registers_once_witness :
  sw_init_count (spdk_accel_module_list demo_world_cold) = 1%nat
  /\ g_sw_accel_engine demo_world_cold = None
  /\ (spdk_accel_engine_initialize ;; spdk_accel_engine_initialize) demo_world_cold
     = Crash AssertFailed.
Proof.
  split; [reflexivity|]. split; [reflexivity|].
  destruct (software_registers_once demo_world_cold) as (_ & _ & _ & H).
  exact (H eq_refl eq_refl).
Defined.

(** X6: the shutdown of the example state with its two hooks. *)
Lemma shutdown_clears_state_witness :
  g_accel_engine_module demo_world = None
  /\ msgq demo_world = []
  /\ (length (fini_hooks (spdk_accel_module_list demo_world)) <= 2)%nat
  /\ exists w',
      (spdk_accel_engine_finish (Some 99) 5 ;; thread_poll_n 2) demo_world = Ok tt w'
      /\ lifecycle_idle w'
      /\ (accel_dev ∉ io_devices w')
      /\ g_sw_accel_engine w' = None.
Proof.
  assert (L : (length (fini_hooks (spdk_accel_module_list demo_world)) <= 2)%nat)
    by (simpl; lia).
  split; [reflexivity|]. split; [reflexivity|]. split; [exact L|].
  destruct (shutdown_clears_state demo_world 99 5 2 eq_refl eq_refl L)
    as (w' & E & Hidle & _ & Hgone & Hsw).
  exists w'. split; [exact E|]. split; [exact Hidle|]. split; [exact Hgone|].
  apply Hsw. simpl. apply list_elem_of_here.
Defined.

(** X7: one call of the advance step too many after the shutdown of the
    example state sends the first hook again. *)
Lemma shutdown_edges_witness :
  spdk_accel_engine_finish None 5 demo_world = Crash AssertFailed
  /\ exists w',
      (spdk_accel_engine_finish (Some 99) 5 ;; thread_poll_n 2 ;;
       spdk_accel_engine_module_finish) demo_world = Ok tt w'
      /\ msgq w' = [sw_accel_engine_fini_hook]
      /\ g_fini_cb_fn w' = None.
Proof.
  destruct (shutdown_edges demo_world 99 5 2) as (Hnull & _ & Hagain).
  split; [exact (Hnull 5)|].
  assert (L : (length (fini_hooks (spdk_accel_module_list demo_world)) <= 2)%nat)
    by (simpl; lia).
  exact (Hagain eq_refl eq_refl L).
Defined.

(** X8: the example state is started, shut down and started again. *)
Lemma lifecycle_restarts_witness :
  lifecycle_idle demo_world_cold
  /\ exists w1 w2 w3,
      spdk_accel_engine_initialize demo_world_cold = Ok 0 w1
      /\ (spdk_accel_engine_finish (Some 99) 5 ;; thread_poll_n 2) w1 = Ok tt w2
      /\ g_sw_accel_engine w2 = None
      /\ spdk_accel_engine_initialize w2 = Ok 0 w3
      /\ sw_ready w3.
Proof.
  assert (I : lifecycle_idle demo_world_cold) by (repeat split).
  assert (F : sw_accel_engine_fini_hook ∈ fini_hooks (spdk_accel_module_list demo_world_cold))
    by (simpl; apply list_elem_of_here).
  assert (L : (length (fini_hooks (spdk_accel_module_list demo_world_cold)) <= 2)%nat)
    by (simpl; lia).
  split; [exact I|].
  destruct (lifecycle_restarts demo_world_cold 99 5 2 I eq_refl eq_refl F L)
    as (w1 & w2 & w3 & E1 & _ & E2 & _ & Hsw & _ & _ & E3 & Hready & _).
  exists w1, w2, w3.
  split; [exact E1|]. split; [exact E2|]. split; [exact Hsw|]. split; [exact E3|exact Hready].
Defined.

(** X9: a channel request in the example state with an empty software
    slot, and one with hardware engine 3. *)
Lemma create_channel_needs_software_witness :
  @spdk_accel_engine_get_io_channel demo_platform (set_sw None demo_world) = Crash NullDeref
  /\ exists w',
      @accel_engine_create_cb demo_platform (accel_dev, 1)
        (set_sw None (set_hw (Some (hw_engine_ref 3)) demo_world_sw)) = Ok 0 w'
      /\ binding w' 1 = Some (hw_engine_ref 3).
Proof.
  split.
  - destruct (@create_channel_needs_software demo_platform (accel_dev, 1)
                (set_sw None demo_world)) as (_ & _ & _ & H & _).
    apply H; try reflexivity. apply list_elem_of_here.
  - destruct (@create_channel_needs_software demo_platform (accel_dev, 1)
                (set_sw None (set_hw (Some (hw_engine_ref 3)) demo_world_sw)))
      as (_ & _ & _ & _ & H).
    destruct (H 3 (hw_chan 3) _ {| chan_ref := 1; chan_ctx := demo_ctx |}
                eq_refl eq_refl eq_refl) as (w' & E & Hl & _).
    exists w'. split; [exact E|]. unfold binding. rewrite Hl. reflexivity.
Defined.

(** X10: the batch functions on the software channel, and the batch
    constructor on a channel of hardware engine 3. *)
Lemma batch_dispatch_witness :
  channel_ctx demo_world_sw (io_chan accel_dev 1) demo_ctx
  /\ spdk_accel_batch_create (rest := demo_platform_rest) (io_chan accel_dev 1)
       demo_world_sw = Crash NullCall
  /\ spdk_accel_batch_submit (plat := demo_platform) (rest := demo_platform_rest) 0x100 (io_chan accel_dev 1)
       0x5000 77 demo_world_sw = Crash NullCall
  /\ spdk_accel_batch_create (rest := demo_platform_rest) (io_chan accel_dev 1)
       demo_world_hw = Ok 0x5000 demo_world_hw
  /\ spdk_accel_batch_submit (plat := demo_platform) (rest := demo_platform_rest) 0x100 (io_chan accel_dev 1)
       0x5000 77 demo_world_hw = Crash NullCall.
Proof.
  split; [exact demo_channel_bound|].
  destruct (batch_dispatch (plat := demo_platform) (rest := demo_platform_rest) 0x100 (io_chan accel_dev 1)
              sw_accel_engine_ref (Some (io_chan sw_dev 1)) 0x5000 0 0 0 77 demo_world_sw
              demo_channel_bound) as (Hsw & _).
  destruct (Hsw eq_refl) as (Hc & _ & Hs & _).
  split; [exact Hc|]. split; [exact Hs|].
  assert (Hb : channel_ctx demo_world_hw (io_chan accel_dev 1)
                 {| engine := Some (hw_engine_ref 3); ch := Some (hw_chan 3) |}).
  { exists 1. eexists. repeat split. }
  destruct (batch_dispatch (plat := demo_platform) (rest := demo_platform_rest) 0x100 (io_chan accel_dev 1)
              (hw_engine_ref 3) (Some (hw_chan 3)) 0x5000 0 0 0 77 demo_world_hw Hb)
    as (_ & Hc' & _ & Hs' & _).
  split; [etransitivity; [exact Hc'|reflexivity]|etransitivity; [exact Hs'|reflexivity]].
Defined.

(** X11: the capability mask of the software channel with the example
    flags. *)
Lemma capabilities_of_channel_witness :
  channel_ctx demo_world_sw (io_chan accel_dev 1) demo_ctx
  /\ spdk_accel_get_capabilities (rest := demo_platform_rest) (io_chan accel_dev 1)
       demo_world_sw = Ok 47 demo_world_sw.
Proof.
  split; [exact demo_channel_bound|].
  destruct (capabilities_of_channel (rest := demo_platform_rest) (io_chan accel_dev 1)
              sw_accel_engine_ref (Some (io_chan sw_dev 1)) demo_world_sw
              demo_channel_bound) as (Hq & _).
  etransitivity; [exact Hq|reflexivity].
Defined.

(** X12: the example state from start-up to a completed copy. *)
Lemma software_path_end_to_end_witness :
  disjoint 0x2000 0x1000 16
  /\ exists w1 w2 w3,
      spdk_accel_engine_initialize demo_world_cold = Ok 0 w1
      /\ @spdk_accel_engine_get_io_channel demo_platform w1
         = Ok (Some (io_chan accel_dev 1)) w2
      /\ @spdk_accel_submit_copy demo_platform 0x100 (io_chan accel_dev 1)
           0x2000 0x1000 16 77 w2 = Ok 0 w3
      /\ (forall i, 0 <= i < 16 -> mem w3 (0x2000 + i) = demo_mem (0x1000 + i))
      /\ trace w3 = [start_notice; EvModuleInit (module_init_hook 1);
                     EvModuleInit (module_init_hook 2); EvCompletion 77 0x100 0].
Proof.
  assert (R : 0 <= 0x100 < 2 ^ 64) by lia.
  assert (D : disjoint 0x2000 0x1000 16) by (unfold disjoint; lia).
  split; [exact D|].
  destruct (@software_path_end_to_end demo_platform demo_world_cold 0x100 0x2000 0x1000 16 77
              eq_refl eq_refl eq_refl eq_refl R D)
    as (w1 & w2 & w3 & E1 & E2 & _ & E3 & Hmem & Htr).
  exists w1, w2, w3. repeat split; assumption.
Defined.

(** X13: thread 1 gets its channel from hardware engine 3 and submits a
    copy on it. *)
Lemma hardware_path_end_to_end_witness :
  exists w2,
    @spdk_accel_engine_get_io_channel demo_platform
      (set_hw (Some (hw_engine_ref 3)) demo_world)
    = Ok (Some (io_chan accel_dev 1)) w2
    /\ binding w2 1 = Some (hw_engine_ref 3)
    /\ @spdk_accel_submit_copy demo_platform 0x100 (io_chan accel_dev 1)
         0x2000 0x1000 16 77 w2
       = copy (demo_hw_engine 8 3) 0x108 (Some (hw_chan 3)) 0x2000 0x1000 16
           (@_accel_engine_done)
           (set_task_cb (<[0x100 := 77]> (task_cb w2)) w2).
Proof.
  assert (Hdev : accel_dev ∈ io_devices (set_hw (Some (hw_engine_ref 3)) demo_world))
    by apply list_elem_of_here.
  destruct (@hardware_path_end_to_end demo_platform
              (set_hw (Some (hw_engine_ref 3)) demo_world) 3 (hw_chan 3) _ 0x100 77
              Hdev eq_refl eq_refl eq_refl)
    as (w2 & E & Hb & Hcopy & _).
  { repeat split. }
  exists w2. split; [exact E|]. split; [exact Hb|]. exact (Hcopy 0x2000 0x1000 16).
Defined.
